(** * dynamodb-manager: discovery pipeline and capacity-mode transitions

    A shallow embedding of the Go packages [search], [update] and [client]
    of bazelgo/dynamodb-manager, with the properties of its specification
    stated and settled against the embedded code.

    Conventions.
    - A Go [string] is a sequence of bytes: Rocq's [string] (a list of
      8-bit [ascii]).  [len(s)] is the number of bytes.
    - A Go [int]/[int64] is a [Z]; the arithmetic of [FuzzyMatchRatio] is
      wrapped to 64 bits ([wrap64]).
    - The AWS service is a record of responses ([Cloud]); every call made
      to it and every call made to the logger is recorded in a trace.
    - The package-level function variables ([GetTableListClient],
      [UpdateProvisionedCapacityClient], ...) stand for the functions of
      package [client] they are initialised with.
    - Pointers the code dereferences without a nil check (the described
      table, its ARN and throughput, the key and value of a tag) are
      values: the service fills them in. *)

From Stdlib Require Import ZArith Lia Ascii.
From Stdlib Require DecimalString DecimalZ DecimalPos.
From stdpp Require Import base strings list gmap.

Local Open Scope Z_scope.

(** ** Go strings and runes *)

Module GoString.

Definition byte_of (c : ascii) : Z := Z.of_N (Ascii.N_of_ascii c).

Fixpoint bytes (s : string) : list Z :=
  match s with
  | EmptyString => []
  | String c s' => byte_of c :: bytes s'
  end.

(** [len(s)]: the number of bytes of [s]. *)
Definition len (s : string) : Z := Z.of_nat (String.length s).

(** [utf8.RuneError], U+FFFD. *)
Definition RuneError : Z := 0xFFFD.

Definition locb : Z := 0x80.
Definition hicb : Z := 0xBF.

(** The [first] table of unicode/utf8, as the size of the sequence a
    first byte announces and the range accepted for the second byte.
    [None] is the table's [xx] entry (an invalid first byte); ASCII bytes
    are handled before the table is consulted. *)
Definition first (s0 : Z) : option (nat * (Z * Z)) :=
  if s0 <? 0xC2 then None
  else if s0 <=? 0xDF then Some (2%nat, (locb, hicb))
  else if s0 =? 0xE0 then Some (3%nat, (0xA0, hicb))
  else if s0 <=? 0xEC then Some (3%nat, (locb, hicb))
  else if s0 =? 0xED then Some (3%nat, (locb, 0x9F))
  else if s0 <=? 0xEF then Some (3%nat, (locb, hicb))
  else if s0 =? 0xF0 then Some (4%nat, (0x90, hicb))
  else if s0 <=? 0xF3 then Some (4%nat, (locb, hicb))
  else if s0 =? 0xF4 then Some (4%nat, (locb, 0x8F))
  else None.

Definition out_of (lo hi b : Z) : bool := (b <? lo) || (hi <? b).

(** [utf8.DecodeRuneInString] (the decoder the conversion [[]rune(s)]
    runs): the first rune of a non-empty byte sequence and its width.  An
    invalid or truncated sequence yields [RuneError] with width 1. *)
Definition DecodeRune (s : list Z) : Z * nat :=
  match s with
  | [] => (RuneError, 0%nat)
  | s0 :: rest =>
    if s0 <? 0x80 then (s0, 1%nat)
    else match first s0 with
    | None => (RuneError, 1%nat)
    | Some (sz, (lo, hi)) =>
      if (length s <? sz)%nat then (RuneError, 1%nat)
      else match rest with
      | [] => (RuneError, 1%nat)
      | s1 :: rest1 =>
        if out_of lo hi s1 then (RuneError, 1%nat)
        else if (sz <=? 2)%nat then
          (Z.lor (Z.shiftl (Z.land s0 0x1F) 6) (Z.land s1 0x3F), 2%nat)
        else match rest1 with
        | [] => (RuneError, 1%nat)
        | s2 :: rest2 =>
          if out_of locb hicb s2 then (RuneError, 1%nat)
          else if (sz <=? 3)%nat then
            (Z.lor (Z.lor (Z.shiftl (Z.land s0 0x0F) 12)
                          (Z.shiftl (Z.land s1 0x3F) 6))
                   (Z.land s2 0x3F), 3%nat)
          else match rest2 with
          | [] => (RuneError, 1%nat)
          | s3 :: _ =>
            if out_of locb hicb s3 then (RuneError, 1%nat)
            else
              (Z.lor (Z.lor (Z.lor (Z.shiftl (Z.land s0 0x07) 18)
                                   (Z.shiftl (Z.land s1 0x3F) 12))
                            (Z.shiftl (Z.land s2 0x3F) 6))
                     (Z.land s3 0x3F), 4%nat)
          end
        end
      end
    end
  end.

(** Decoding a whole byte sequence; [skip] counts the bytes of the current
    rune still to be stepped over. *)
Fixpoint decode_from (skip : nat) (s : list Z) : list Z :=
  match s with
  | [] => []
  | _ :: rest =>
    match skip with
    | S k => decode_from k rest
    | O => let '(r, w) := DecodeRune s in r :: decode_from (w - 1) rest
    end
  end.

(** The conversion [[]rune(s)]. *)
Definition runes (s : string) : list Z := decode_from 0 (bytes s).

(** [strings.Contains(s, substr)]: [substr] occurs in [s] as a run of
    bytes. *)
Fixpoint HasPrefix (s prefix : string) : bool :=
  match prefix, s with
  | EmptyString, _ => true
  | String _ _, EmptyString => false
  | String p prefix', String c s' =>
    if decide (p = c) then HasPrefix s' prefix' else false
  end.

Fixpoint Contains (s substr : string) : bool :=
  HasPrefix s substr ||
  match s with
  | EmptyString => false
  | String _ s' => Contains s' substr
  end.

End GoString.

(** ** The dependency texttheater/golang-levenshtein

    [search.go] calls [levenshtein.DistanceForStrings] with
    [levenshtein.DefaultOptions] (module version
    v0.0.0-20200805054039-cae8b0eaed6c).  The function fills a two-row
    edit matrix, row [i%2] being the current one. *)

Module levenshtein.

Record Options := {
  InsCost : Z;
  DelCost : Z;
  SubCost : Z;
  Matches : Z -> Z -> bool
}.

(** The library's default: insertion 1, deletion 1, substitution 2, and
    two runes match when they are the same. *)
Definition DefaultOptions : Options :=
  {| InsCost := 1; DelCost := 1; SubCost := 2; Matches := Z.eqb |}.

Section Distance.
Variable op : Options.

(** The body of [for j := 1; j < width; j++]; [rest] is
    [target[j-1:]]. *)
Fixpoint fill_row (c : Z) (rest : list Z) (j : nat) (prev cur : list Z)
  : list Z :=
  match rest with
  | [] => cur
  | t :: rest' =>
    let delCost := prev !!! j + DelCost op in
    let matchSubCost :=
      prev !!! (j - 1)%nat + (if Matches op c t then 0 else SubCost op) in
    let insCost := cur !!! (j - 1)%nat + InsCost op in
    fill_row c rest' (S j) prev
      (<[j := Z.min delCost (Z.min matchSubCost insCost)]> cur)
  end.

(** The body of [for i := 1; i < height; i++]; [rest] is
    [source[i-1:]].  The rows [i%2] and [(i-1)%2] are distinct, so the
    writes to [cur] leave [prev] as it was read. *)
Fixpoint fill_matrix (rest target : list Z) (i : nat)
    (matrix : list (list Z)) : list (list Z) :=
  match rest with
  | [] => matrix
  | c :: rest' =>
    let cur := matrix !!! (i mod 2)%nat in
    let prev := matrix !!! ((i - 1) mod 2)%nat in
    let cur := <[0%nat := Z.of_nat i * DelCost op]> cur in
    let cur := fill_row c target 1 prev cur in
    fill_matrix rest' target (S i) (<[(i mod 2)%nat := cur]> matrix)
  end.

(** The two rows after initialisation: [matrix[i][0] = i * DelCost] and
    [matrix[0][j] = j * InsCost]. *)
Definition init_matrix (width : nat) : list (list Z) :=
  [ <[0%nat := 0 * DelCost op]>
      ((fun j => Z.of_nat j * InsCost op) <$> seq 0 width);
    <[0%nat := 1 * DelCost op]> (replicate width 0) ].

Definition DistanceForStrings (source target : list Z) : Z :=
  let height := (length source + 1)%nat in
  let width := (length target + 1)%nat in
  let matrix := fill_matrix source target 1 (init_matrix width) in
  (matrix !!! ((height - 1) mod 2)%nat) !!! (width - 1)%nat.

End Distance.

End levenshtein.

(** ** Package search: the similarity scorer *)

(** The value of a 64-bit signed integer after an operation wrapped. *)
Definition wrap64 (z : Z) : Z := (z + 2 ^ 63) mod 2 ^ 64 - 2 ^ 63.

Definition FuzzyRatio : Z := 80.

(** [NormalizeRatio] (search.go): the ratio brought between 0 and 100. *)
Definition NormalizeRatio (ratio : Z) : Z :=
  if ratio <? 0 then 0
  else if ratio >? 100 then 100
  else ratio.

(** [FuzzyMatchRatio] (search.go): the distance is taken over
    [[]rune(str)], [maxLen] over [len(str)]; [/] truncates towards zero. *)
Definition FuzzyMatchRatio (str1 str2 : string) : Z :=
  let distance :=
    levenshtein.DistanceForStrings levenshtein.DefaultOptions
      (GoString.runes str1) (GoString.runes str2) in
  let maxLen := GoString.len str1 in
  let maxLen := if GoString.len str2 >? maxLen then GoString.len str2 else maxLen in
  if maxLen =? 0 then 100
  else wrap64 (Z.quot (wrap64 (wrap64 (maxLen - distance) * 100)) maxLen).

(** ** The Go standard library functions the packages call *)

Module strconv.

Definition maxUint64 : Z := 2 ^ 64 - 1.

Definition digit (c : ascii) : option Z :=
  let b := GoString.byte_of c in
  if (48 <=? b) && (b <=? 57) then Some (b - 48) else None.

Inductive NumError := ErrSyntax | ErrRange.

(** The digit loop of [ParseUint(s, 10, 64)]: [n] is the value read so
    far; a range error returns the largest value. *)
Fixpoint ParseUint_loop (s : string) (n : Z) : Z * option NumError :=
  match s with
  | EmptyString => (n, None)
  | String c s' =>
    match digit c with
    | None => (0, Some ErrSyntax)
    | Some d =>
      if n >=? maxUint64 / 10 + 1 then (maxUint64, Some ErrRange)
      else
        let n := n * 10 in
        let n1 := (n + d) mod 2 ^ 64 in
        if (n1 <? n) || (n1 >? maxUint64) then (maxUint64, Some ErrRange)
        else ParseUint_loop s' n1
    end
  end.

Definition ParseUint (s : string) : Z * option NumError :=
  match s with
  | EmptyString => (0, Some ErrSyntax)
  | _ => ParseUint_loop s 0
  end.

(** [strconv.ParseInt(s, 10, 64)]. *)
Definition ParseInt (s : string) : Z * option NumError :=
  match s with
  | EmptyString => (0, Some ErrSyntax)
  | String c0 s' =>
    let '(neg, s1) :=
      if decide (c0 = "+"%char) then (false, s')
      else if decide (c0 = "-"%char) then (true, s')
      else (false, s) in
    let '(un, err) := ParseUint s1 in
    match err with
    | Some ErrSyntax => (0, err)
    | _ =>
      let cutoff := 2 ^ 63 in
      if negb neg && (un >=? cutoff) then (cutoff - 1, Some ErrRange)
      else if neg && (un >? cutoff) then (- cutoff, Some ErrRange)
      else ((if neg then - un else un), None)
    end
  end.

End strconv.

Module fmt.

(** [fmt.Sprintf("%d", n)]: the decimal rendering of an integer. *)
Definition Sprintf_d (n : Z) : string :=
  DecimalString.NilZero.string_of_int (Z.to_int n).

End fmt.

(** ** The AWS service and the logger, as seen by the packages *)

Definition error := string.

Inductive Level := LvDebug | LvInfo | LvWarn | LvError.

(** [types.BillingMode] is a string type. *)
Definition BillingModeProvisioned : string := "PROVISIONED".
Definition BillingModePayPerRequest : string := "PAY_PER_REQUEST".

(** [types.ProvisionedThroughput], and the two fields the code reads of
    [types.ProvisionedThroughputDescription]: pointers to [int64]. *)
Record ProvisionedThroughput := {
  ReadCapacityUnits : option Z;
  WriteCapacityUnits : option Z
}.

(** [dynamodb.UpdateTableInput]; an unset [BillingMode] is the empty
    string, an unset [ProvisionedThroughput] is [None]. *)
Record UpdateTableInput := {
  TableName : string;
  BillingMode : string;
  Throughput : option ProvisionedThroughput
}.

(** The part of [types.TableDescription] the packages read.  The billing
    mode summary is a pointer that may be nil. *)
Record TableDescription := {
  TableArn : string;
  BillingModeSummary : option string;
  TableThroughput : ProvisionedThroughput
}.

Record Tag := { Key : string; Value : string }.

(** The responses of the service.  Every listing opens a paginator of
    its own on the service: [ListTablesPaginators k] holds the outcome of
    each successive [NextPage] of the paginator opened after [k] earlier
    ones; [HasMorePages] is true as long as an outcome is left.  Two
    listings of one run may so be answered differently. *)
Record Cloud := {
  ListTablesPaginators : nat -> list (error + list string);
  DescribeTable : string -> error + TableDescription;
  ListTagsOfResource : string -> error + list Tag;
  UpdateTable : UpdateTableInput -> option error
}.

(** The pages of the paginator that the next listing opens. *)
Definition ListTablesPages (dbmgr : Cloud) : list (error + list string) :=
  ListTablesPaginators dbmgr 0.

(** The service as the code finds it once a paginator has been opened:
    the next listing opens the paginator after it.  The other responses
    are the same. *)
Definition AfterListing (dbmgr : Cloud) : Cloud :=
  {| ListTablesPaginators := fun k => ListTablesPaginators dbmgr (S k);
     DescribeTable := DescribeTable dbmgr;
     ListTagsOfResource := ListTagsOfResource dbmgr;
     UpdateTable := UpdateTable dbmgr |}.

(** What a run does to the outside: the calls to the service and to the
    logger, in order.  A log record carries its level and its format
    string as [Logger.sanitize] leaves it (line breaks removed). *)
Inductive Event :=
  | EvLog (lvl : Level) (msg : string)
  | EvNextPage
  | EvDescribeTable (name : string)
  | EvListTagsOfResource (arn : string)
  | EvUpdateTable (input : UpdateTableInput).

(** A computation: the events it emits and its result. *)
Definition M (A : Type) : Type := (list Event * A)%type.

Global Instance M_ret : MRet M := fun A a => ([], a).
Global Instance M_bind : MBind M := fun A B k m =>
  let '(t1, a) := m in let '(t2, b) := k a in (t1 ++ t2, b).

Definition emit (e : Event) : M unit := ([e], tt).
Definition log (lvl : Level) (msg : string) : M unit := emit (EvLog lvl msg).

Definition trace {A} (m : M A) : list Event := fst m.
Definition value {A} (m : M A) : A := snd m.

(** The mutating calls of a trace: the requests sent to [UpdateTable]. *)
Definition mutating_calls (t : list Event) : list UpdateTableInput :=
  omap (fun e => match e with EvUpdateTable i => Some i | _ => None end) t.

(** The calls to the service in a trace (everything but log records). *)
Definition is_call (e : Event) : bool :=
  match e with EvLog _ _ => false | _ => true end.

Definition repository_calls (t : list Event) : list Event :=
  List.filter is_call t.

(** The log records of a trace. *)
Definition log_records (t : list Event) : list (Level * string) :=
  omap (fun e => match e with EvLog l m => Some (l, m) | _ => None end) t.

(** ** Package client *)

Module client.

Definition DefaultRcu : Z := 5.
Definition DefaultWcu : Z := 5.

(** The paginator loop of [GetTableList]; [pages] are the outcomes still
    to come, [tableNames] the names appended so far. *)
Fixpoint GetTableList_loop (pages : list (error + list string))
    (tableNames : list string) : M (list string * option error) :=
  match pages with
  | [] => mret (tableNames, None)
  | page :: pages' =>
    emit EvNextPage;;
    match page with
    | inl err =>
      log LvError "Couldn't list tables. Here's why: %v";;
      mret (tableNames, Some err)
    | inr names => GetTableList_loop pages' (tableNames ++ names)
    end
  end.

(** [GetTableList] opens a paginator of its own. *)
Definition GetTableList (dbmgr : Cloud) : M (list string * option error) :=
  GetTableList_loop (ListTablesPages dbmgr) [].

Definition GetTableArn (dbmgr : Cloud) (tableName : string)
    : M (string * option error) :=
  emit (EvDescribeTable tableName);;
  match DescribeTable dbmgr tableName with
  | inl err =>
    log LvError "Failed to get Table Arn, Here's why: %v";;
    mret ("", Some err)
  | inr table => mret (TableArn table, None)
  end.

Definition GetTableTags (dbmgr : Cloud) (tableArn : string)
    : M (list Tag * option error) :=
  emit (EvListTagsOfResource tableArn);;
  match ListTagsOfResource dbmgr tableArn with
  | inl err =>
    log LvError "Error calling ListTagsOfResource:%v";;
    mret ([], Some err)
  | inr tags => mret (tags, None)
  end.

(** [aws.ToInt64]: the value behind the pointer, 0 for nil. *)
Definition ToInt64 (p : option Z) : Z := default 0 p.

Definition GetCurrentBillingMode (dbmgr : Cloud) (tableName : string)
    : M (string * string * string * option error) :=
  emit (EvDescribeTable tableName);;
  match DescribeTable dbmgr tableName with
  | inl err => mret ("", "", "", Some err)
  | inr table =>
    let billingMode := default "" (BillingModeSummary table) in
    let '(rcu, wcu) :=
      if decide (billingMode = "PROVISIONED") then
        (fmt.Sprintf_d (ToInt64 (ReadCapacityUnits (TableThroughput table))),
         fmt.Sprintf_d (ToInt64 (WriteCapacityUnits (TableThroughput table))))
      else ("", "") in
    mret (billingMode, rcu, wcu, None)
  end.

Definition UpdateProvisionedCapacity (dbmgr : Cloud)
    (switchToProvisioned : bool) (tableName rcuStr wcuStr : string)
    : M (option error) :=
  let rcuVal := if decide (rcuStr ≠ "") then fst (strconv.ParseInt rcuStr) else 0 in
  let wcuVal := if decide (wcuStr ≠ "") then fst (strconv.ParseInt wcuStr) else 0 in
  let input :=
    if switchToProvisioned then
      let rcuVal := if decide (rcuStr = "") then DefaultRcu else rcuVal in
      let wcuVal := if decide (wcuStr = "") then DefaultWcu else wcuVal in
      {| TableName := tableName;
         BillingMode := BillingModeProvisioned;
         Throughput := Some {| ReadCapacityUnits := Some rcuVal;
                               WriteCapacityUnits := Some wcuVal |} |}
    else
      {| TableName := tableName;
         BillingMode := "";
         Throughput := Some {| ReadCapacityUnits := Some rcuVal;
                               WriteCapacityUnits := Some wcuVal |} |} in
  emit (EvUpdateTable input);;
  let err := UpdateTable dbmgr input in
  match err with
  | Some _ => log LvError "Error updating provisioned capacity: %v"
  | None => log LvInfo "Provisioned capacity updated for table:%s - RCU: %d, WCU: %d"
  end;;
  mret err.

Definition SwitchToOnDemandCapacity (dbmgr : Cloud) (tableName : string)
    : M (option error) :=
  let input :=
    {| TableName := tableName;
       BillingMode := BillingModePayPerRequest;
       Throughput := None |} in
  emit (EvUpdateTable input);;
  let err := UpdateTable dbmgr input in
  match err with
  | Some _ => log LvError "error switching to on-demand capacity: %v"
  | None => log LvInfo "Switched to on-demand capacity for table: %s"
  end;;
  mret err.

End client.

(** ** Package strings: [ToLower] *)

Module strings.

Definition isASCII (s : string) : bool :=
  forallb (fun b => b <? 0x80) (GoString.bytes s).

Definition lower_byte (c : ascii) : ascii :=
  let b := GoString.byte_of c in
  if (65 <=? b) && (b <=? 90) then Ascii.ascii_of_N (Z.to_N (b + 32)) else c.

Fixpoint lower_bytes (s : string) : string :=
  match s with
  | EmptyString => EmptyString
  | String c s' => String (lower_byte c) (lower_bytes s')
  end.

(** [strings.ToLower]: an ASCII-only string has its bytes ['A'..'Z']
    shifted to lower case; any other string goes through
    [Map(unicode.ToLower, s)], which depends on the Unicode case tables
    and is taken here as [mapUnicodeToLower]. *)
Definition ToLower (mapUnicodeToLower : string -> string) (s : string)
    : string :=
  if isASCII s then lower_bytes s else mapUnicodeToLower s.

End strings.

(** ** Package search: the discovery pipeline *)

Module search.

Section Discovery.
Variable mapUnicodeToLower : string -> string.

Abbreviation ToLower := (strings.ToLower mapUnicodeToLower).

(** [map[string]string{"Name": tableName, "ARN": tableArn}] *)
Definition table_entry (tableName tableArn : string) : gmap string string :=
  <["Name" := tableName]> (<["ARN" := tableArn]> ∅).

(** The loop of [searchTablesByFuzzyName] over the table names. *)
Fixpoint fuzzy_loop (dbmgr : Cloud) (fuzzyName : string)
    (tableList : list string) (matchingTables : list (gmap string string))
    : M (list (gmap string string)) :=
  match tableList with
  | [] => mret matchingTables
  | tableName :: rest =>
    skip ←
      (if negb (GoString.Contains tableName fuzzyName) then
         let fuzzyRatio :=
           FuzzyMatchRatio (ToLower fuzzyName) (ToLower tableName) in
         let similarityScore := NormalizeRatio fuzzyRatio in
         log LvDebug "Calculating: fuzzyname:%s - tablename:%s - similarityScore: %d";;
         mret (similarityScore <? FuzzyRatio)
       else mret false);
    if (skip : bool) then fuzzy_loop dbmgr fuzzyName rest matchingTables
    else
      '(tableArn, err) ← client.GetTableArn dbmgr tableName;
      match err with
      | Some _ =>
        log LvWarn "Error getting table ARN: %v";;
        fuzzy_loop dbmgr fuzzyName rest matchingTables
      | None =>
        log LvInfo "searchTablesByFuzzyName: fuzzyname:%s - tablename:%s - tableArn: %s";;
        fuzzy_loop dbmgr fuzzyName rest
          (matchingTables ++ [table_entry tableName tableArn])
      end
  end.

Definition searchTablesByFuzzyName (dbmgr : Cloud) (fuzzyName : string)
    : M (list (gmap string string)) :=
  '(tableList, err) ← client.GetTableList dbmgr;
  match err with
  | Some _ =>
    log LvError "Error finding DynamoDB tables: %v";;
    mret []
  | None =>
    log LvInfo "searchTablesByFuzzyName before";;
    fuzzy_loop dbmgr fuzzyName tableList []
  end.

(** The inner loop of [searchTablesByTagValue] over the tags of one
    table: [true] when a tag carries the value (the loop breaks
    there). *)
Fixpoint tag_loop (tagValue : string) (tags : list Tag) : M bool :=
  match tags with
  | [] => mret false
  | tag :: rest =>
    log LvDebug "table_name: %s - tableArn: %s, Key: %s, Value: %s";;
    if decide (Value tag = tagValue) then mret true
    else tag_loop tagValue rest
  end.

(** The outer loop of [searchTablesByTagValue]. *)
Fixpoint tag_value_loop (dbmgr : Cloud) (tagValue : string)
    (tableListTag : list string) (matchingTables : list (gmap string string))
    : M (list (gmap string string)) :=
  match tableListTag with
  | [] => mret matchingTables
  | tableName :: rest =>
    log LvInfo "Check the tags of table name: %s";;
    '(tableArn, err) ← client.GetTableArn dbmgr tableName;
    match err with
    | Some _ =>
      log LvWarn "Error getting table ARN: %v";;
      tag_value_loop dbmgr tagValue rest matchingTables
    | None =>
      '(tags, errTag) ← client.GetTableTags dbmgr tableArn;
      match errTag with
      | Some _ =>
        log LvWarn "Get tags for arn:%s, failed due to:%v";;
        tag_value_loop dbmgr tagValue rest matchingTables
      | None =>
        found ← tag_loop tagValue tags;
        tag_value_loop dbmgr tagValue rest
          (if (found : bool)
           then matchingTables ++ [table_entry tableName tableArn]
           else matchingTables)
      end
    end
  end.

(** [tableList] is a slice that may be nil ([None]); a non-nil slice is
    copied and used as it is, a nil one makes the function list every
    table. *)
Definition searchTablesByTagValue (dbmgr : Cloud) (tagValue : string)
    (tableList : option (list string)) : M (list (gmap string string)) :=
  match tableList with
  | Some tableListTag => tag_value_loop dbmgr tagValue tableListTag []
  | None =>
    '(tableListTag, errGetTable) ← client.GetTableList dbmgr;
    match errGetTable with
    | Some _ =>
      log LvError "Error finding DynamoDB tables: %v";;
      mret []
    | None => tag_value_loop dbmgr tagValue tableListTag []
    end
  end.

(** [append] to a slice that may be nil. *)
Definition append_name (tableList : option (list string)) (name : string)
    : option (list string) :=
  Some (default [] tableList ++ [name]).

(** The loop of [ExecuteSearch] collecting the names of the name
    matches; [tableList] starts as the nil slice. *)
Definition names_of (fuzzyMatchingTables : list (gmap string string))
    : option (list string) :=
  foldl (fun tableList entry =>
           match entry !! "Name" with
           | Some name => append_name tableList name
           | None => tableList
           end) None fuzzyMatchingTables.

(** The closing loop of [ExecuteSearch], one record per result. *)
Fixpoint report (matchingTables : list (gmap string string)) : M unit :=
  match matchingTables with
  | [] => mret tt
  | _ :: rest => log LvInfo "Table Name: %s, ARN: %s";; report rest
  end.

(** [ExecuteSearch].  The four-way branch either yields the matches
    ([Some]) or, in its last arm, returns nil at once ([None]); the
    statements after the branch run in the first case only.  In the first
    arm [searchTablesByFuzzyName] has opened one paginator, on every path,
    before [searchTablesByTagValue] is called, which so meets the service
    [AfterListing dbmgr]. *)
Definition ExecuteSearch (dbmgr : Cloud) (tableFuzzyName tagValue : string)
    : M (list (gmap string string)) :=
  found ←
    (if decide (tableFuzzyName ≠ "" ∧ tagValue ≠ "") then
       log LvInfo "Begin to search the matched tables via fuzzy name:%s, tag:%s, ...";;
       fuzzyMatchingTables ← searchTablesByFuzzyName dbmgr tableFuzzyName;
       let tableList := names_of fuzzyMatchingTables in
       matchingTables ← searchTablesByTagValue (AfterListing dbmgr) tagValue tableList;
       mret (Some matchingTables)
     else if decide (tableFuzzyName ≠ "") then
       log LvInfo "Begin to search the matched tables via fuzzy name:%s, ...";;
       matchingTables ← searchTablesByFuzzyName dbmgr tableFuzzyName;
       mret (Some matchingTables)
     else if decide (tagValue ≠ "") then
       log LvInfo "Begin to search the matched tables via tag:%s, ...";;
       matchingTables ← searchTablesByTagValue dbmgr tagValue None;
       mret (Some matchingTables)
     else
       log LvError "Invalid search conditions: search table name or tag value should not be empty!";;
       mret None);
  match found with
  | None => mret []
  | Some matchingTables =>
    (if bool_decide (matchingTables = []) then
       log LvWarn "Empty search results - please check the search conditions, tableFuzzyName:%s - tagValue:%s"
     else mret tt);;
    log LvInfo "Search results:";;
    report matchingTables;;
    mret matchingTables
  end.

End Discovery.

End search.

(** ** Package update: the capacity-mode transition *)

Module update.

Definition ExecuteUpdate (dbmgr : Cloud) (tableName paramRcu paramWcu : string)
    (switchToOnDemand switchToProvisioned : bool) : M (option error) :=
  '(billingMode, rcu, wcu, err) ← client.GetCurrentBillingMode dbmgr tableName;
  match err with
  | Some _ =>
    log LvError "Failed to get the billing mode info of table:%s : as current billing mode due to error:%v";;
    mret (Some "Failed to update the table!")
  | None =>
    if switchToOnDemand then
      if decide (billingMode ≠ "PAY_PER_REQUEST") then
        client.SwitchToOnDemandCapacity dbmgr tableName
      else
        log LvWarn "No need to switch, as it already is on demand mode!";;
        mret None
    else
      if bool_decide (billingMode ≠ "PROVISIONED") && negb switchToProvisioned then
        log LvError "Failed to update table:%s : as current billing mode:%s - does not support modification of rcu or wcu";;
        mret (Some "Failed to update the table!")
      else if decide (paramRcu = "" ∧ paramWcu = "") then
        client.UpdateProvisionedCapacity dbmgr switchToProvisioned tableName "" ""
      else
        let paramRcu :=
          if decide (paramRcu = "") then fmt.Sprintf_d client.DefaultRcu
          else paramRcu in
        let paramWcu :=
          if decide (paramWcu = "") then fmt.Sprintf_d client.DefaultWcu
          else paramWcu in
        if decide (paramRcu ≠ rcu ∨ paramWcu ≠ wcu) then
          client.UpdateProvisionedCapacity dbmgr switchToProvisioned tableName
            paramRcu paramWcu
        else
          log LvWarn "No need to update, as it already is provisioned mode or remain the same rcu and wcu!";;
          mret None
  end.

End update.

(** ** The notions the specification speaks of *)

Module Spec.

Section EditDistance.
Variable op : levenshtein.Options.
Variables s t : list Z.

(** The edit-distance recurrence: [cell i j] is the least cost of
    turning the first [i] elements of [s] into the first [j] elements
    of [t] by insertions, deletions and substitutions. *)
Fixpoint cell (i : nat) : nat -> Z :=
  match i with
  | O => fun j => Z.of_nat j * levenshtein.InsCost op
  | S i' =>
    fix row (j : nat) : Z :=
      match j with
      | O => Z.of_nat (S i') * levenshtein.DelCost op
      | S j' =>
        Z.min (cell i' (S j') + levenshtein.DelCost op)
          (Z.min (cell i' j' +
                    (if levenshtein.Matches op (s !!! i') (t !!! j')
                     then 0 else levenshtein.SubCost op))
                 (row j' + levenshtein.InsCost op))
      end
  end.

Definition edit_distance : Z := cell (length s) (length t).
End EditDistance.

(** Unit costs: insertion, deletion and substitution cost 1 each. *)
Definition UnitCost : levenshtein.Options :=
  {| levenshtein.InsCost := 1; levenshtein.DelCost := 1;
     levenshtein.SubCost := 1; levenshtein.Matches := Z.eqb |}.

(** The length of a string in Unicode code points. *)
Definition rune_count (s : string) : Z := Z.of_nat (length (GoString.runes s)).

Definition clamp (x : Z) : Z := Z.max 0 (Z.min 100 x).

(** The score as a formula over code points: 100 for two empty strings,
    otherwise [floor((maxLen - distance) * 100 / maxLen)] clamped into
    [0,100], for the edit distance with the costs [op]. *)
Definition score_formula (op : levenshtein.Options) (a b : string) : Z :=
  let maxLen := Z.max (rune_count a) (rune_count b) in
  if maxLen =? 0 then 100
  else clamp ((maxLen - edit_distance op (GoString.runes a) (GoString.runes b))
              * 100 / maxLen).

(** A candidate name passes the name filter when it contains the pattern
    as a literal substring, or when the clamped score of the lower-cased
    pattern against the lower-cased name reaches 80. *)
Definition name_passes (lower : string -> string) (pattern name : string)
    : bool :=
  GoString.Contains name pattern ||
  (80 <=? NormalizeRatio (FuzzyMatchRatio (lower pattern) (lower name))).

(** The names submitted to [DescribeTable], in order. *)
Definition describe_calls (t : list Event) : list string :=
  omap (fun e => match e with EvDescribeTable n => Some n | _ => None end) t.

(** The result entry of a name whose identifier resolves. *)
Definition resolve (dbmgr : Cloud) (name : string)
    : option (gmap string string) :=
  match DescribeTable dbmgr name with
  | inr table => Some (search.table_entry name (TableArn table))
  | inl _ => None
  end.

(** The names a paginator has yielded before its first failing page. *)
Fixpoint names_before_failure (pages : list (error + list string))
    : list string :=
  match pages with
  | inr names :: pages' => names ++ names_before_failure pages'
  | _ => []
  end.

(** The failure of the first failing page of a paginator, if any. *)
Fixpoint first_failure (pages : list (error + list string)) : option error :=
  match pages with
  | [] => None
  | inl err :: _ => Some err
  | inr _ :: pages' => first_failure pages'
  end.

(** The calls made for one table: describe, tag lookup and update (every
    call to the service but the listing). *)
Definition per_table_calls (t : list Event) : list Event :=
  List.filter
    (fun e => match e with
              | EvDescribeTable _ | EvListTagsOfResource _ | EvUpdateTable _ => true
              | _ => false
              end) t.

(** A tag set holds a tag with the given value, whatever its key. *)
Definition has_tag_value (tagValue : string) (tags : list Tag) : bool :=
  existsb (fun tag => bool_decide (Value tag = tagValue)) tags.

(** The result entry of a name that resolves and whose tags hold the
    value. *)
Definition resolve_tagged (dbmgr : Cloud) (tagValue name : string)
    : option (gmap string string) :=
  match DescribeTable dbmgr name with
  | inr table =>
    match ListTagsOfResource dbmgr (TableArn table) with
    | inr tags =>
      if has_tag_value tagValue tags
      then Some (search.table_entry name (TableArn table))
      else None
    | inl _ => None
    end
  | inl _ => None
  end.

(** A blank unit is resolved to the rendering of the default. *)
Definition resolve_unit (param : string) (dflt : Z) : string :=
  if decide (param = "") then fmt.Sprintf_d dflt else param.

(** The units of a table as integers. *)
Definition current_units (table : TableDescription) : Z * Z :=
  (client.ToInt64 (ReadCapacityUnits (TableThroughput table)),
   client.ToInt64 (WriteCapacityUnits (TableThroughput table))).

(** The billing mode the code sees: the empty string when the table has
    no billing mode summary. *)
Definition current_mode (table : TableDescription) : string :=
  default "" (BillingModeSummary table).

(** The update request that sets provisioned mode with the given units. *)
Definition set_provisioned (tableName : string) (rcu wcu : Z)
    : UpdateTableInput :=
  {| TableName := tableName;
     BillingMode := BillingModeProvisioned;
     Throughput := Some {| ReadCapacityUnits := Some rcu;
                           WriteCapacityUnits := Some wcu |} |}.

End Spec.

(** ** Sample services *)

Module Sample.

Definition table (arn : string) (mode : option string) (rcu wcu : Z)
    : TableDescription :=
  {| TableArn := arn;
     BillingModeSummary := mode;
     TableThroughput := {| ReadCapacityUnits := Some rcu;
                           WriteCapacityUnits := Some wcu |} |}.

(** Two tables: "orders", provisioned with 5/5 units and tagged
    env=prod, and "users", on demand and untagged. *)
Definition describe (name : string) : error + TableDescription :=
  if decide (name = "orders")
  then inr (table "arn:orders" (Some "PROVISIONED") 5 5)
  else if decide (name = "users")
  then inr (table "arn:users" (Some "PAY_PER_REQUEST") 0 0)
  else inl "ResourceNotFoundException".

Definition tags (arn : string) : error + list Tag :=
  if decide (arn = "arn:orders")
  then inr [ {| Key := "env"; Value := "prod" |} ]
  else inr [].

Definition shop : Cloud :=
  {| ListTablesPaginators := fun _ => [inr ["orders"; "users"]];
     DescribeTable := describe;
     ListTagsOfResource := tags;
     UpdateTable := fun _ => None |}.

(** The same service when the second page of every listing fails. *)
Definition shop_listing_fails : Cloud :=
  {| ListTablesPaginators :=
       fun _ => [inr ["orders"; "users"]; inl "ThrottlingException"];
     DescribeTable := describe;
     ListTagsOfResource := tags;
     UpdateTable := fun _ => None |}.

(** The same service when the second page of the first listing fails and
    every later listing succeeds. *)
Definition shop_listing_recovers : Cloud :=
  {| ListTablesPaginators :=
       fun k =>
         match k with
         | O => [inr ["orders"; "users"]; inl "ThrottlingException"]
         | S _ => [inr ["orders"; "users"]]
         end;
     DescribeTable := describe;
     ListTagsOfResource := tags;
     UpdateTable := fun _ => None |}.

(** No Unicode tables are needed for ASCII strings. *)
Definition noUnicode (s : string) : string := s.

End Sample.

(** ** Package logging: the message filter *)

Module logging.

(** [strings.ReplaceAll(s, old, "")] for a one-byte [old]: every
    occurrence of the byte is dropped. *)
Fixpoint remove_byte (c : ascii) (s : string) : string :=
  match s with
  | EmptyString => EmptyString
  | String x s' =>
    if decide (x = c) then remove_byte c s' else String x (remove_byte c s')
  end.

(** [Logger.sanitize]: the line feeds are removed, then the carriage
    returns. *)
Definition sanitize (msg : string) : string :=
  let sanitizedMsg := remove_byte "010"%char msg in
  remove_byte "013"%char sanitizedMsg.

End logging.

(** ** Package main: the command line after parsing *)

Module Main.

(** The package-level variables the flags are read into. *)
Record Flags := {
  searchTerm : string;
  tagValue : string;
  updateTable : string;
  rcuValueStr : string;
  wcuValueStr : string;
  provisioned : bool;
  onDemand : bool
}.

(** The errors of [checkCommand], one constructor per [errors.New], in the
    order of the source; the last two carry the offending string and the
    error of [strconv.ParseInt]. *)
Inductive CommandError :=
  | InvalidCommand
  | SearchWithCapacityFlags
  | UpdateWithSearch
  | NothingToUpdate
  | OnDemandWithUnits
  | InvalidRcu (s : string) (e : strconv.NumError)
  | InvalidWcu (s : string) (e : strconv.NumError).

Definition isValidSearchCommand (fl : Flags) : bool :=
  (bool_decide (searchTerm fl ≠ "") || bool_decide (tagValue fl ≠ ""))
  && bool_decide (updateTable fl = "").

Definition isValidUpdateCommand (fl : Flags) : bool :=
  bool_decide (updateTable fl ≠ "") && bool_decide (searchTerm fl = "")
  && bool_decide (tagValue fl = "").

Definition checkCommand (fl : Flags) : option CommandError :=
  if negb (isValidSearchCommand fl) && negb (isValidUpdateCommand fl) then
    Some InvalidCommand
  else if (bool_decide (searchTerm fl ≠ "") || bool_decide (tagValue fl ≠ ""))
          && (bool_decide (rcuValueStr fl ≠ "") || bool_decide (wcuValueStr fl ≠ "")
              || provisioned fl || onDemand fl) then
    Some SearchWithCapacityFlags
  else if bool_decide (updateTable fl ≠ "")
          && (bool_decide (searchTerm fl ≠ "") || bool_decide (tagValue fl ≠ "")) then
    Some UpdateWithSearch
  else if bool_decide (updateTable fl ≠ "") && bool_decide (rcuValueStr fl = "")
          && bool_decide (wcuValueStr fl = "") && negb (provisioned fl)
          && negb (onDemand fl) then
    Some NothingToUpdate
  else if bool_decide (updateTable fl ≠ "") && onDemand fl
          && (bool_decide (rcuValueStr fl ≠ "") || bool_decide (wcuValueStr fl ≠ "")) then
    Some OnDemandWithUnits
  else
    match (if decide (rcuValueStr fl ≠ "")
           then snd (strconv.ParseInt (rcuValueStr fl)) else None) with
    | Some e => Some (InvalidRcu (rcuValueStr fl) e)
    | None =>
      match (if decide (wcuValueStr fl ≠ "")
             then snd (strconv.ParseInt (wcuValueStr fl)) else None) with
      | Some e => Some (InvalidWcu (wcuValueStr fl) e)
      | None => None
      end
    end.

Definition dumpParams : M unit :=
  log LvDebug "Debug info - passed args listed here:";;
  log LvDebug "Search Term: %s";;
  log LvDebug "Tag Value: %s";;
  log LvDebug "Update Table: %s";;
  log LvDebug "RCU Value: %s";;
  log LvDebug "WCU Value: %s";;
  log LvDebug "Provisioned: %t";;
  log LvDebug "On-Demand: %t".

Section Run.
Variable mapUnicodeToLower : string -> string.

(** [run]: the result of the task is dropped; only an unrecognised action
    is an error. *)
Definition run (dbmgr : Cloud) (fl : Flags) (action : string)
    : M (option error) :=
  if decide (action = "search") then
    search.ExecuteSearch mapUnicodeToLower dbmgr (searchTerm fl) (tagValue fl);;
    mret None
  else if decide (action = "update") then
    update.ExecuteUpdate dbmgr (updateTable fl) (rcuValueStr fl) (wcuValueStr fl)
      (onDemand fl) (provisioned fl);;
    mret None
  else mret (Some ("unrecognized action provided:" +:+ action)).

(** [main], for flags that parsed and a manager and logger that were set
    up: the exit status.  A command that [checkCommand] rejects ends the
    process before the manager exists. *)
Definition main (dbmgr : Cloud) (fl : Flags) : M Z :=
  match checkCommand fl with
  | Some _ => mret 1
  | None =>
    dumpParams;;
    (if decide (updateTable fl ≠ "") then
       err ← run dbmgr fl "update";
       match err with
       | Some _ => log LvError "Failed to update the dynamodb table:%s , due to: %v"
       | None => mret tt
       end
     else
       err ← run dbmgr fl "search";
       match err with
       | Some _ => log LvError "Failed to search dynamodb table due to: %v"
       | None => mret tt
       end);;
    mret 1
  end.

End Run.

End Main.

(** ** Further notions used in the properties *)

Module Notions.

(** The ARNs submitted to [ListTagsOfResource], in order. *)
Definition tag_calls (t : list Event) : list string :=
  omap (fun e => match e with EvListTagsOfResource a => Some a | _ => None end) t.

(** The number of pages requested from the paginator. *)
Definition page_calls (t : list Event) : nat :=
  length (List.filter (fun e => match e with EvNextPage => true | _ => false end) t).

(** The ARN of a name that resolves. *)
Definition arn_of (dbmgr : Cloud) (name : string) : option string :=
  match DescribeTable dbmgr name with
  | inr table => Some (TableArn table)
  | inl _ => None
  end.

(** The pages a paginator is asked for: those before the first failing
    page, and that page. *)
Fixpoint pages_requested (pages : list (error + list string)) : nat :=
  match pages with
  | [] => 0
  | inl _ :: _ => 1
  | inr _ :: pages' => S (pages_requested pages')
  end.

(** The request that switches a table to on-demand mode. *)
Definition set_on_demand (tableName : string) : UpdateTableInput :=
  {| TableName := tableName;
     BillingMode := BillingModePayPerRequest;
     Throughput := None |}.

(** The request that changes the units and leaves the billing mode
    unset. *)
Definition set_units (tableName : string) (rcu wcu : Z) : UpdateTableInput :=
  {| TableName := tableName;
     BillingMode := "";
     Throughput := Some {| ReadCapacityUnits := Some rcu;
                           WriteCapacityUnits := Some wcu |} |}.

(** A 64-bit signed integer. *)
Definition int64 (n : Z) : Prop := - 2 ^ 63 ≤ n < 2 ^ 63.

(** A service with one table, "events", provisioned with 7/3 units, that
    has never been switched: its description carries no billing mode
    summary. *)
Definition legacy : Cloud :=
  {| ListTablesPaginators := fun _ => [inr ["events"]];
     DescribeTable := fun name =>
       if decide (name = "events")
       then inr {| TableArn := "arn:events";
                   BillingModeSummary := None;
                   TableThroughput := {| ReadCapacityUnits := Some 7;
                                         WriteCapacityUnits := Some 3 |} |}
       else inl "ResourceNotFoundException";
     ListTagsOfResource := fun _ => inr [];
     UpdateTable := fun _ => None |}.

End Notions.

(** * Properties *)

(** ** The two-row matrix computes the edit-distance recurrence *)

Lemma drop_cons_inv {A} (l : list A) n x rest :
  drop n l = x :: rest → l !! n = Some x ∧ drop (S n) l = rest.
Proof.
  revert l. induction n as [|n IH]; intros [|y l] H; simplify_eq/=; auto.
Qed.

Section MatrixCorrect.
Variable op : levenshtein.Options.
Variables source target : list Z.

Let W : nat := S (length target).
Abbreviation D := (Spec.cell op source target).

Lemma cell_succ_succ i j :
  D (S i) (S j) =
  Z.min (D i (S j) + levenshtein.DelCost op)
    (Z.min (D i j + (if levenshtein.Matches op (source !!! i) (target !!! j)
                     then 0 else levenshtein.SubCost op))
           (D (S i) j + levenshtein.InsCost op)).
Proof. reflexivity. Qed.

Lemma cell_succ_zero i : D (S i) 0 = Z.of_nat (S i) * levenshtein.DelCost op.
Proof. reflexivity. Qed.

Lemma cell_zero j : D 0 j = Z.of_nat j * levenshtein.InsCost op.
Proof. reflexivity. Qed.

(** One pass of the inner loop turns a row holding [D i] below column
    [j] into a row holding [D i] everywhere. *)
Lemma fill_row_spec i prev :
  (∀ k, (k < W)%nat → prev !!! k = D i k) →
  ∀ rest j cur,
    (1 ≤ j)%nat →
    drop (j - 1) target = rest →
    length cur = W →
    (∀ k, (k < j)%nat → cur !!! k = D (S i) k) →
    let r := levenshtein.fill_row op (source !!! i) rest j prev cur in
    length r = W ∧ ∀ k, (k < W)%nat → r !!! k = D (S i) k.
Proof.
  intros Hprev rest.
  induction rest as [|t0 rest IH]; intros j cur Hj Hdrop Hlen Hcur; simpl.
  - split; [done|]. intros k Hk. apply Hcur.
    apply drop_nil_inv in Hdrop. unfold W in Hk. lia.
  - apply drop_cons_inv in Hdrop as [Ht0 Hrest].
    assert (Hlt : (j - 1 < length target)%nat) by (by eapply lookup_lt_Some).
    apply IH.
    + lia.
    + by replace (S j - 1)%nat with (S (j - 1)) by lia.
    + by rewrite length_insert.
    + intros k Hk. destruct (decide (k = j)) as [->|Hne].
      * rewrite list_lookup_total_insert_eq by (unfold W in *; lia).
        destruct j as [|j']; [lia|].
        replace (S j' - 1)%nat with j' in * by lia.
        rewrite cell_succ_succ, (list_lookup_total_correct _ _ _ Ht0).
        rewrite !Hprev by (unfold W; lia).
        rewrite Hcur by lia. done.
      * rewrite list_lookup_total_insert_ne by done. apply Hcur. lia.
Qed.
(** The outer loop: when row [(i-1) mod 2] holds [D (i-1)], the loop
    leaves [D (length source)] in row [length source mod 2]. *)
Lemma fill_matrix_spec :
  ∀ rest i matrix,
    (1 ≤ i)%nat →
    (i - 1 ≤ length source)%nat →
    drop (i - 1) source = rest →
    length matrix = 2%nat →
    (∀ r, (r < 2)%nat → length (matrix !!! r) = W) →
    (∀ k, (k < W)%nat → (matrix !!! ((i - 1) mod 2)%nat) !!! k = D (i - 1) k) →
    let m := levenshtein.fill_matrix op rest target i matrix in
    ∀ k, (k < W)%nat →
      (m !!! (length source mod 2)%nat) !!! k = D (length source) k.
Proof.
  induction rest as [|c rest IH]; intros i matrix Hi Hle Hdrop Hlen Hrows Hprev; simpl.
  - apply drop_nil_inv in Hdrop.
    replace (length source) with (i - 1)%nat by lia. done.
  - apply drop_cons_inv in Hdrop as [Hc Hrest].
    assert (Hlt : (i - 1 < length source)%nat) by (by eapply lookup_lt_Some).
    destruct i as [|i']; [lia|].
    replace (S i' - 1)%nat with i' in * by lia.
    assert (Hpar : (S i' mod 2 < 2)%nat) by (apply Nat.mod_upper_bound; lia).
    rewrite <- (list_lookup_total_correct _ _ _ Hc).
    destruct (fill_row_spec i' (matrix !!! (i' mod 2)%nat) Hprev target 1%nat
                (<[0%nat := Z.of_nat (S i') * levenshtein.DelCost op]>
                   (matrix !!! (S i' mod 2)%nat)))
      as [Hrlen Hrow].
    + lia.
    + done.
    + rewrite length_insert. by apply Hrows.
    + intros k Hk. replace k with 0%nat by lia.
      rewrite list_lookup_total_insert_eq by (rewrite Hrows by done; unfold W; lia).
      by rewrite cell_succ_zero.
    + apply IH.
      * lia.
      * lia.
      * by replace (S (S i') - 1)%nat with (S i') by lia.
      * by rewrite length_insert.
      * intros r Hr. destruct (decide (r = S i' mod 2)%nat) as [->|Hne].
        -- rewrite list_lookup_total_insert_eq by lia. done.
        -- rewrite list_lookup_total_insert_ne by done. by apply Hrows.
      * intros k Hk. replace (S (S i') - 1)%nat with (S i') by lia.
        rewrite list_lookup_total_insert_eq by lia. by apply Hrow.
Qed.

Lemma init_matrix_spec :
  length (levenshtein.init_matrix op W) = 2%nat ∧
  (∀ r, (r < 2)%nat → length (levenshtein.init_matrix op W !!! r) = W) ∧
  (∀ k, (k < W)%nat → (levenshtein.init_matrix op W !!! 0%nat) !!! k = D 0 k).
Proof.
  split; [done|]. split.
  - intros [|[|r]] Hr; simpl; [| |lia]; unfold W; f_equal.
    + etrans; [apply length_fmap | apply length_seq].
    + apply length_replicate.
  - intros k Hk. rewrite cell_zero.
    change (levenshtein.init_matrix op W !!! 0%nat)
      with (<[0%nat := 0 * levenshtein.DelCost op]>
              ((fun j => Z.of_nat j * levenshtein.InsCost op) <$> seq 0 W)).
    destruct k as [|k].
    + rewrite list_lookup_total_insert_eq; [lia|].
      rewrite length_fmap, length_seq. unfold W. lia.
    + rewrite list_lookup_total_insert_ne by done.
      apply list_lookup_total_correct.
      rewrite list_lookup_fmap, lookup_seq_lt by done. done.
Qed.

(** [DistanceForStrings] returns the edit distance of the recurrence,
    whatever the costs. *)
Lemma DistanceForStrings_edit_distance :
  levenshtein.DistanceForStrings op source target =
  Spec.edit_distance op source target.
Proof.
  unfold levenshtein.DistanceForStrings, Spec.edit_distance.
  destruct init_matrix_spec as (Hlen & Hrows & Hrow0).
  replace (length source + 1 - 1)%nat with (length source) by lia.
  replace (length target + 1 - 1)%nat with (length target) by lia.
  replace (length target + 1)%nat with W by (unfold W; lia).
  apply (fill_matrix_spec source 1%nat); try done; try lia.
Qed.
End MatrixCorrect.

(** ** The similarity scorer *)

(** With the library's default costs a distance lies between 0 and the
    sum of the two lengths. *)
Lemma cell_default_bounds s t i j :
  0 ≤ Spec.cell levenshtein.DefaultOptions s t i j ≤ Z.of_nat i + Z.of_nat j.
Proof.
  revert j. induction i as [|i IHi]; intros j.
  - simpl. lia.
  - induction j as [|j IHj].
    + rewrite cell_succ_zero. simpl levenshtein.DelCost. lia.
    + rewrite cell_succ_succ. simpl levenshtein.DelCost.
      simpl levenshtein.InsCost. simpl levenshtein.SubCost.
      pose proof (IHi (S j)). pose proof (IHi j).
      destruct (levenshtein.Matches _ _ _); lia.
Qed.

Lemma edit_distance_default_bounds s t :
  0 ≤ Spec.edit_distance levenshtein.DefaultOptions s t
    ≤ Z.of_nat (length s) + Z.of_nat (length t).
Proof. apply cell_default_bounds. Qed.

(** A string has at most as many code points as bytes. *)
Lemma length_decode_from skip s :
  (length (GoString.decode_from skip s) ≤ length s)%nat.
Proof.
  revert skip. induction s as [|b s IH]; intros skip; [done|].
  cbn [GoString.decode_from]. destruct skip as [|k].
  - destruct (GoString.DecodeRune (b :: s)) as [r w]. simpl.
    specialize (IH (w - 1)%nat). lia.
  - specialize (IH k). simpl. lia.
Qed.

Lemma length_bytes s : length (GoString.bytes s) = String.length s.
Proof. induction s; simpl; congruence. Qed.

Lemma rune_count_le_len s : 0 ≤ Spec.rune_count s ≤ GoString.len s.
Proof.
  unfold Spec.rune_count, GoString.len, GoString.runes.
  pose proof (length_decode_from 0 (GoString.bytes s)) as H.
  rewrite length_bytes in H. lia.
Qed.

Lemma wrap64_small z : - 2 ^ 63 ≤ z < 2 ^ 63 → wrap64 z = z.
Proof. intros H. unfold wrap64. rewrite Z.mod_small; lia. Qed.

(** What [FuzzyMatchRatio] computes, for strings short enough that no
    64-bit operation wraps: the distance is taken over code points with
    the default costs, the length [maxLen] in bytes, and the division
    truncates towards zero. *)
Lemma FuzzyMatchRatio_formula a b :
  GoString.len a < 2 ^ 56 → GoString.len b < 2 ^ 56 →
  FuzzyMatchRatio a b =
  let maxLen := Z.max (GoString.len a) (GoString.len b) in
  if maxLen =? 0 then 100
  else Z.quot ((maxLen - Spec.edit_distance levenshtein.DefaultOptions
                           (GoString.runes a) (GoString.runes b)) * 100)
              maxLen.
Proof.
  intros Ha Hb. unfold FuzzyMatchRatio.
  rewrite DistanceForStrings_edit_distance.
  pose proof (edit_distance_default_bounds (GoString.runes a) (GoString.runes b)) as Hd.
  pose proof (rune_count_le_len a) as Hra. pose proof (rune_count_le_len b) as Hrb.
  unfold Spec.rune_count in Hra, Hrb.
  set (d := Spec.edit_distance _ _ _) in *.
  assert (Hmax : (if GoString.len b >? GoString.len a
                  then GoString.len b else GoString.len a)
                 = Z.max (GoString.len a) (GoString.len b)).
  { destruct (Z.gtb_spec (GoString.len b) (GoString.len a)); lia. }
  rewrite Hmax. cbv zeta.
  set (m := Z.max (GoString.len a) (GoString.len b)) in *.
  destruct (Z.eqb_spec m 0) as [|Hm]; [done|].
  assert (Hm0 : 0 < m) by (unfold GoString.len in *; lia).
  assert (Hm56 : m < 2 ^ 56) by lia.
  assert (Hdm : - m ≤ m - d ≤ m) by lia.
  rewrite (wrap64_small (m - d)) by lia.
  rewrite (wrap64_small ((m - d) * 100)) by lia.
  apply wrap64_small.
  assert (Hq : Z.abs (Z.quot ((m - d) * 100) m) ≤ Z.abs ((m - d) * 100)).
  { rewrite <- Z.quot_abs by lia.
    apply Z.quot_le_upper_bound; nia. }
  lia.
Qed.

(** The clamp makes truncation and flooring agree. *)
Lemma NormalizeRatio_quot x m :
  0 < m → NormalizeRatio (Z.quot x m) = Spec.clamp (x / m).
Proof.
  intros Hm. unfold NormalizeRatio, Spec.clamp.
  destruct (Z.le_gt_cases 0 x) as [Hx|Hx].
  - rewrite Z.quot_div_nonneg by lia.
    destruct (Z.ltb_spec (x / m) 0), (Z.gtb_spec (x / m) 100); lia.
  - assert (Z.quot x m ≤ 0).
    { rewrite <- (Z.opp_involutive x), Z.quot_opp_l by lia.
      pose proof (Z.quot_pos (- x) m). lia. }
    assert (x / m < 0) by (apply Z.div_lt_upper_bound; lia).
    destruct (Z.ltb_spec (Z.quot x m) 0), (Z.gtb_spec (Z.quot x m) 100); lia.
Qed.

(** C1 (as amended): for strings whose byte length equals their number of
    code points (ASCII strings, for instance) and that are shorter than
    2^56 bytes, the clamped similarity score is 100 when both strings are
    empty and otherwise [floor((maxLen - distance) * 100 / maxLen)]
    clamped into [0,100], where [distance] is the edit distance over code
    points with insertion and deletion cost 1 and substitution cost 2 (the
    library's default options) and [maxLen] is the larger of the two
    lengths. *)
Theorem similarity_score_default_costs a b :
  GoString.len a = Spec.rune_count a →
  GoString.len b = Spec.rune_count b →
  GoString.len a < 2 ^ 56 →
  GoString.len b < 2 ^ 56 →
  NormalizeRatio (FuzzyMatchRatio a b) =
  Spec.score_formula levenshtein.DefaultOptions a b.
Proof.
  intros Ha Hb Hla Hlb.
  rewrite FuzzyMatchRatio_formula by done.
  unfold Spec.score_formula. rewrite <- Ha, <- Hb. cbv zeta.
  destruct (Z.eqb_spec (Z.max (GoString.len a) (GoString.len b)) 0) as [|Hm].
  - reflexivity.
  - apply NormalizeRatio_quot. unfold GoString.len in *. lia.
Qed.

Lemma similarity_score_default_costs_witness :
  NormalizeRatio (FuzzyMatchRatio "orders" "order") =
  Spec.score_formula levenshtein.DefaultOptions "orders" "order".
Proof.
  apply (similarity_score_default_costs "orders" "order");
    vm_compute; reflexivity.
Defined.

(** C1 (as stated) fails, twice over.  One substitution separates "abcde"
    from "abcdx", so unit costs give [floor(4 * 100 / 5) = 80], but the
    code charges a substitution 2 and scores 60.  And for the two-byte
    string U+00E9 against the empty string, one code point is deleted out
    of one, which gives 0, but the code takes [maxLen] in bytes and scores
    [floor(1 * 100 / 2) = 50]. *)
Lemma similarity_score_counterexample :
  (NormalizeRatio (FuzzyMatchRatio "abcde" "abcdx") = 60 ∧
   Spec.score_formula Spec.UnitCost "abcde" "abcdx" = 80) ∧
  (let e_acute := String "195"%char (String "169"%char EmptyString) in
   GoString.runes e_acute = [0xE9] ∧
   NormalizeRatio (FuzzyMatchRatio e_acute "") = 50 ∧
   Spec.score_formula Spec.UnitCost e_acute "" = 0).
Proof. repeat split; vm_compute; reflexivity. Qed.

Example edit_distance_kitten_sitting :
  Spec.edit_distance Spec.UnitCost
    (GoString.runes "kitten") (GoString.runes "sitting") = 3 ∧
  Spec.edit_distance levenshtein.DefaultOptions
    (GoString.runes "kitten") (GoString.runes "sitting") = 5.
Proof. split; vm_compute; reflexivity. Qed.

Example FuzzyMatchRatio_orders : FuzzyMatchRatio "orders" "order" = 83.
Proof. vm_compute. reflexivity. Qed.

Example FuzzyMatchRatio_negative : FuzzyMatchRatio "ab" "cd" = -100.
Proof. vm_compute. reflexivity. Qed.

(** ** The capacity-mode transition *)

(** What [GetCurrentBillingMode] returns for a table the service
    describes. *)
Lemma GetCurrentBillingMode_described dbmgr tableName table :
  DescribeTable dbmgr tableName = inr table →
  client.GetCurrentBillingMode dbmgr tableName =
  ([EvDescribeTable tableName],
   (Spec.current_mode table,
    (if decide (Spec.current_mode table = "PROVISIONED")
     then fmt.Sprintf_d (fst (Spec.current_units table)) else ""),
    (if decide (Spec.current_mode table = "PROVISIONED")
     then fmt.Sprintf_d (snd (Spec.current_units table)) else ""),
    None)).
Proof.
  intros Hd. unfold client.GetCurrentBillingMode. rewrite Hd.
  unfold Spec.current_mode, Spec.current_units.
  destruct (decide (default "" (BillingModeSummary table) = "PROVISIONED"));
    reflexivity.
Qed.

(** C4: a change of read/write units requested while the table is on
    demand, without the switch-to-provisioned flag, is reported as an
    error and no mutating call is issued. *)
Theorem units_on_demand_rejected dbmgr tableName paramRcu paramWcu table :
  DescribeTable dbmgr tableName = inr table →
  BillingModeSummary table = Some BillingModePayPerRequest →
  let run := update.ExecuteUpdate dbmgr tableName paramRcu paramWcu false false in
  value run = Some "Failed to update the table!" ∧
  mutating_calls (trace run) = [] ∧
  trace run =
    [EvDescribeTable tableName;
     EvLog LvError "Failed to update table:%s : as current billing mode:%s - does not support modification of rcu or wcu"].
Proof.
  intros Hd Hmode. unfold update.ExecuteUpdate.
  rewrite (GetCurrentBillingMode_described _ _ _ Hd).
  unfold Spec.current_mode. rewrite Hmode. done.
Qed.

Lemma units_on_demand_rejected_witness :
  let run := update.ExecuteUpdate Sample.shop "users" "10" "" false false in
  value run = Some "Failed to update the table!" ∧
  mutating_calls (trace run) = [] ∧
  trace run =
    [EvDescribeTable "users";
     EvLog LvError "Failed to update table:%s : as current billing mode:%s - does not support modification of rcu or wcu"].
Proof.
  apply (units_on_demand_rejected Sample.shop "users" "10" ""
           (Sample.table "arn:users" (Some "PAY_PER_REQUEST") 0 0));
    reflexivity.
Defined.

(** C8: asking for on-demand mode when the table is already on demand
    (PAY_PER_REQUEST) succeeds, issues no mutating call and logs that
    nothing was to be done. *)
Theorem on_demand_idempotent dbmgr tableName paramRcu paramWcu
    switchToProvisioned table :
  DescribeTable dbmgr tableName = inr table →
  BillingModeSummary table = Some BillingModePayPerRequest →
  let run := update.ExecuteUpdate dbmgr tableName paramRcu paramWcu true
               switchToProvisioned in
  value run = None ∧
  mutating_calls (trace run) = [] ∧
  log_records (trace run) =
    [(LvWarn, "No need to switch, as it already is on demand mode!")].
Proof.
  intros Hd Hmode. unfold update.ExecuteUpdate.
  rewrite (GetCurrentBillingMode_described _ _ _ Hd).
  unfold Spec.current_mode. rewrite Hmode. done.
Qed.

Lemma on_demand_idempotent_witness :
  let run := update.ExecuteUpdate Sample.shop "users" "" "" true false in
  value run = None ∧
  mutating_calls (trace run) = [] ∧
  log_records (trace run) =
    [(LvWarn, "No need to switch, as it already is on demand mode!")].
Proof.
  apply (on_demand_idempotent Sample.shop "users" "" "" false
           (Sample.table "arn:users" (Some "PAY_PER_REQUEST") 0 0));
    reflexivity.
Defined.

(** C7: switching to provisioned mode with neither read nor write units
    issues exactly one mutating call, with the default units 5 and 5,
    whatever the table's current mode and units: this path has no no-op. *)
Theorem provisioned_without_units_always_mutates dbmgr tableName table :
  DescribeTable dbmgr tableName = inr table →
  let run := update.ExecuteUpdate dbmgr tableName "" "" false true in
  mutating_calls (trace run) = [Spec.set_provisioned tableName 5 5] ∧
  value run = UpdateTable dbmgr (Spec.set_provisioned tableName 5 5).
Proof.
  intros Hd. unfold update.ExecuteUpdate.
  rewrite (GetCurrentBillingMode_described _ _ _ Hd).
  cbn [mbind M_bind]. rewrite andb_false_r.
  unfold client.UpdateProvisionedCapacity. cbn.
  fold (Spec.set_provisioned tableName 5 5).
  destruct (UpdateTable dbmgr _); done.
Qed.

Lemma provisioned_without_units_always_mutates_witness :
  let run := update.ExecuteUpdate Sample.shop "orders" "" "" false true in
  mutating_calls (trace run) = [Spec.set_provisioned "orders" 5 5] ∧
  value run = UpdateTable Sample.shop (Spec.set_provisioned "orders" 5 5).
Proof.
  apply (provisioned_without_units_always_mutates Sample.shop "orders"
           (Sample.table "arn:orders" (Some "PROVISIONED") 5 5)).
  reflexivity.
Defined.

Lemma Sprintf_d_nonempty n : fmt.Sprintf_d n ≠ "".
Proof.
  unfold fmt.Sprintf_d. destruct (Z.to_int n) as [d|d]; simpl; [|done].
  destruct d; done.
Qed.

Lemma resolve_unit_nonempty param dflt : Spec.resolve_unit param dflt ≠ "".
Proof.
  unfold Spec.resolve_unit. destruct (decide (param = "")); [|done].
  apply Sprintf_d_nonempty.
Qed.

(** The request [UpdateProvisionedCapacity] sends when it is asked to
    switch to provisioned mode with two non-blank unit strings. *)
Lemma UpdateProvisionedCapacity_units dbmgr tableName rcuStr wcuStr :
  rcuStr ≠ "" → wcuStr ≠ "" →
  let input := Spec.set_provisioned tableName (fst (strconv.ParseInt rcuStr))
                 (fst (strconv.ParseInt wcuStr)) in
  let run := client.UpdateProvisionedCapacity dbmgr true tableName rcuStr wcuStr in
  mutating_calls (trace run) = [input] ∧ value run = UpdateTable dbmgr input.
Proof.
  intros Hr Hw. unfold client.UpdateProvisionedCapacity.
  rewrite (decide_True (P := rcuStr ≠ "")), (decide_True (P := wcuStr ≠ "")),
    (decide_False (P := rcuStr = "")), (decide_False (P := wcuStr = "")) by done.
  fold (Spec.set_provisioned tableName (fst (strconv.ParseInt rcuStr))
          (fst (strconv.ParseInt wcuStr))).
  cbn. destruct (UpdateTable dbmgr _); done.
Qed.

(** C3 fails on the code: the table "orders" is PROVISIONED with 5/5
    units, and the command [--update orders --provisioned --rcu 05 --wcu 5],
    which [checkCommand] accepts, asks for the units (5, 5), the table's
    current pair; the claim makes this a no-op, yet the code issues a
    mutating update, because it compares the units as text and "05"
    differs from "5".  With the units written "5" and "5" the same request
    is the no-op. *)
Theorem equal_units_in_other_digits_mutate :
  let fl := {| Main.searchTerm := ""; Main.tagValue := "";
               Main.updateTable := "orders";
               Main.rcuValueStr := "05"; Main.wcuValueStr := "5";
               Main.provisioned := true; Main.onDemand := false |} in
  let table := Sample.table "arn:orders" (Some "PROVISIONED") 5 5 in
  let run := update.ExecuteUpdate Sample.shop "orders" "05" "5" false true in
  let same := update.ExecuteUpdate Sample.shop "orders" "5" "5" false true in
  Main.checkCommand fl = None ∧
  DescribeTable Sample.shop "orders" = inr table ∧
  Spec.current_mode table = "PROVISIONED" ∧
  (fst (strconv.ParseInt (Spec.resolve_unit "05" 5)),
   fst (strconv.ParseInt (Spec.resolve_unit "5" 5)))
    = Spec.current_units table ∧
  mutating_calls (trace run) = [Spec.set_provisioned "orders" 5 5] ∧
  mutating_calls (trace (Main.main Sample.noUnicode Sample.shop fl))
    = [Spec.set_provisioned "orders" 5 5] ∧
  value same = None ∧ mutating_calls (trace same) = [].
Proof. repeat split; vm_compute; reflexivity. Qed.

(** On renderings of integers, equality as text is equality of the
    integers: for units written the way [%d] prints them the no-op test
    compares the numbers. *)
Lemma Sprintf_d_inj m n : fmt.Sprintf_d m = fmt.Sprintf_d n → m = n.
Proof.
  unfold fmt.Sprintf_d. intros H. apply DecimalZ.to_int_inj.
  assert (Hnn : ∀ z, Z.to_int z ≠ Decimal.Pos Decimal.Nil
                     ∧ Z.to_int z ≠ Decimal.Neg Decimal.Nil).
  { intros [|p|p]; cbn; split; try discriminate; intros [= Hp];
      by apply DecimalPos.Unsigned.to_uint_nonnil in Hp. }
  destruct (Hnn m), (Hnn n).
  apply (f_equal DecimalString.NilZero.int_of_string) in H.
  rewrite !DecimalString.NilZero.isi in H by done. congruence.
Qed.

Lemma canonical_units_equal r w table :
  (fmt.Sprintf_d r, fmt.Sprintf_d w)
    = (fmt.Sprintf_d (fst (Spec.current_units table)),
       fmt.Sprintf_d (snd (Spec.current_units table)))
  ↔ (r, w) = Spec.current_units table.
Proof.
  destruct (Spec.current_units table) as [r0 w0]. cbn [fst snd]. split.
  - intros [= ?%Sprintf_d_inj ?%Sprintf_d_inj]. congruence.
  - by intros [= -> ->].
Qed.

(** The two planner examples of the specification. *)
Example plan_same_units_noop :
  let run := update.ExecuteUpdate Sample.shop "orders" "5" "5" false true in
  value run = None ∧ mutating_calls (trace run) = [].
Proof. split; vm_compute; reflexivity. Qed.

Example plan_other_units_mutate :
  let run := update.ExecuteUpdate Sample.shop "orders" "10" "5" false true in
  mutating_calls (trace run) = [Spec.set_provisioned "orders" 10 5] ∧
  value run = None.
Proof. split; vm_compute; reflexivity. Qed.

Example plan_blank_unit_defaulted_noop :
  let run := update.ExecuteUpdate Sample.shop "orders" "5" "" false true in
  value run = None ∧ mutating_calls (trace run) = [].
Proof. split; vm_compute; reflexivity. Qed.

Example ParseInt_examples :
  strconv.ParseInt "10" = (10, None) ∧
  strconv.ParseInt "+5" = (5, None) ∧
  strconv.ParseInt "-7" = (-7, None) ∧
  strconv.ParseInt "1x" = (0, Some strconv.ErrSyntax) ∧
  strconv.ParseInt "9223372036854775808"
    = (9223372036854775807, Some strconv.ErrRange).
Proof. repeat split; vm_compute; reflexivity. Qed.

(** ** Computations and their traces *)

Lemma trace_bind {A B} (m : M A) (k : A → M B) :
  trace (m ≫= k) = trace m ++ trace (k (value m)).
Proof. destruct m as [t a]. cbn. by destruct (k a). Qed.

Lemma value_bind {A B} (m : M A) (k : A → M B) :
  value (m ≫= k) = value (k (value m)).
Proof. destruct m as [t a]. cbn. by destruct (k a). Qed.

Lemma trace_ret {A} (a : A) : trace (mret a : M A) = [].
Proof. reflexivity. Qed.

Lemma value_ret {A} (a : A) : value (mret a : M A) = a.
Proof. reflexivity. Qed.

Lemma trace_log lvl msg : trace (log lvl msg) = [EvLog lvl msg].
Proof. reflexivity. Qed.

Lemma trace_emit e : trace (emit e) = [e].
Proof. reflexivity. Qed.

Lemma describe_calls_app t1 t2 :
  Spec.describe_calls (t1 ++ t2) = Spec.describe_calls t1 ++ Spec.describe_calls t2.
Proof. apply omap_app. Qed.

Lemma mutating_calls_app t1 t2 :
  mutating_calls (t1 ++ t2) = mutating_calls t1 ++ mutating_calls t2.
Proof. apply omap_app. Qed.

Create Rewrite HintDb run.
#[global] Hint Rewrite @trace_bind @value_bind @trace_ret @value_ret
  trace_log trace_emit describe_calls_app : run.

Ltac run_simpl := autorewrite with run; cbn [app].

(** ** The listing *)

Lemma GetTableList_loop_spec pages acc :
  let run := client.GetTableList_loop pages acc in
  value run = (acc ++ Spec.names_before_failure pages, Spec.first_failure pages) ∧
  (∀ e, e ∈ trace run → e = EvNextPage ∨ ∃ msg, e = EvLog LvError msg).
Proof.
  revert acc. induction pages as [|[err|names] pages IH]; intros acc.
  - cbn. rewrite app_nil_r. split; [done|].
    intros e He. by apply elem_of_nil in He.
  - cbn. rewrite app_nil_r. split; [done|].
    intros e [->|[->|[]%elem_of_nil]%elem_of_cons]%elem_of_cons; eauto.
  - cbn [client.GetTableList_loop Spec.names_before_failure Spec.first_failure].
    destruct (IH (acc ++ names)) as (Hv & Ht). run_simpl.
    cbn [emit value snd]. rewrite Hv, app_assoc. split; [done|].
    intros e [->|Hin]%elem_of_cons; [by left|]. by apply Ht.
Qed.

Lemma describe_calls_only_listing t :
  (∀ e, e ∈ t → e = EvNextPage ∨ ∃ msg, e = EvLog LvError msg) →
  Spec.describe_calls t = [].
Proof.
  induction t as [|e t IH]; intros H; [done|].
  unfold Spec.describe_calls in *. cbn.
  destruct (H e) as [->|[msg ->]]; [by left| |]; cbn;
    apply IH; intros e' He'; apply H; by right.
Qed.

Lemma GetTableList_describe_calls dbmgr :
  Spec.describe_calls (trace (client.GetTableList dbmgr)) = [].
Proof.
  apply describe_calls_only_listing.
  apply (GetTableList_loop_spec (ListTablesPages dbmgr) []).
Qed.

(** ** The name filter *)

Section NameFilter.
Variable mapUnicodeToLower : string → string.
Variable dbmgr : Cloud.

Abbreviation lower := (strings.ToLower mapUnicodeToLower).

Lemma GetTableArn_spec name :
  Spec.describe_calls (trace (client.GetTableArn dbmgr name)) = [name] ∧
  value (client.GetTableArn dbmgr name) =
    match DescribeTable dbmgr name with
    | inl err => ("", Some err)
    | inr table => (TableArn table, None)
    end.
Proof.
  unfold client.GetTableArn. destruct (DescribeTable dbmgr name); done.
Qed.

(** The loop submits to [DescribeTable] exactly the names that pass,
    in order, and returns an entry for each one that resolves. *)
Lemma fuzzy_loop_spec pattern names acc :
  let run := search.fuzzy_loop mapUnicodeToLower dbmgr pattern names acc in
  let passing := List.filter (Spec.name_passes lower pattern) names in
  Spec.describe_calls (trace run) = passing ∧
  value run = acc ++ omap (Spec.resolve dbmgr) passing.
Proof.
  revert acc. induction names as [|name names IH]; intros acc.
  - cbn. by rewrite app_nil_r.
  - assert (Hresolved : ∀ t0 : list Event,
      Spec.name_passes lower pattern name = true →
      Spec.describe_calls t0 = [] →
      let run :=
        '(tableArn, err) ← client.GetTableArn dbmgr name;
        match err with
        | Some _ =>
          log LvWarn "Error getting table ARN: %v";;
          search.fuzzy_loop mapUnicodeToLower dbmgr pattern names acc
        | None =>
          log LvInfo "searchTablesByFuzzyName: fuzzyname:%s - tablename:%s - tableArn: %s";;
          search.fuzzy_loop mapUnicodeToLower dbmgr pattern names
            (acc ++ [search.table_entry name tableArn])
        end in
      Spec.describe_calls (t0 ++ trace run)
        = List.filter (Spec.name_passes lower pattern) (name :: names) ∧
      value run
        = acc ++ omap (Spec.resolve dbmgr)
                   (List.filter (Spec.name_passes lower pattern) (name :: names))).
    { intros t0 Hp Ht0. cbn [List.filter]. rewrite Hp.
      cbn [omap list_omap].
      destruct (GetTableArn_spec name) as [Hcalls Hval].
      run_simpl. rewrite Ht0, Hcalls.
      destruct (client.GetTableArn dbmgr name) as [t [arn err]].
      cbn [trace value fst snd] in *.
      destruct (DescribeTable dbmgr name) as [e|table] eqn:Hd; simplify_eq.
      - assert (Spec.resolve dbmgr name = None) as ->
          by (unfold Spec.resolve; by rewrite Hd).
        run_simpl. cbn. destruct (IH acc) as [-> ->]. done.
      - assert (Spec.resolve dbmgr name
                = Some (search.table_entry name (TableArn table))) as ->
          by (unfold Spec.resolve; by rewrite Hd).
        run_simpl. cbn.
        destruct (IH (acc ++ [search.table_entry name (TableArn table)]))
          as [-> ->].
        by rewrite <- app_assoc. }
    cbn [search.fuzzy_loop].
    destruct (GoString.Contains name pattern) eqn:Hc; cbn [negb].
    + rewrite trace_bind, value_bind, value_ret, trace_ret.
      apply (Hresolved []); [|done].
      unfold Spec.name_passes. by rewrite Hc.
    + rewrite trace_bind, value_bind. rewrite value_bind, trace_bind.
      rewrite value_ret, trace_ret, trace_log, app_nil_r.
      unfold FuzzyRatio.
      destruct (Z.ltb_spec
                  (NormalizeRatio (FuzzyMatchRatio (lower pattern) (lower name))) 80)
        as [Hlt|Hge].
      * assert (Hp : Spec.name_passes lower pattern name = false).
        { unfold Spec.name_passes. rewrite Hc. cbn [orb]. by apply Z.leb_gt. }
        cbn [List.filter]. rewrite Hp, describe_calls_app. apply IH.
      * apply Hresolved; [|done].
        unfold Spec.name_passes. rewrite Hc. cbn [orb]. by apply Z.leb_le.
Qed.

Lemma report_describe_calls results :
  Spec.describe_calls (trace (search.report results)) = [].
Proof.
  induction results as [|r results IH]; [done|].
  cbn [search.report]. run_simpl. by rewrite IH.
Qed.
End NameFilter.

Lemma searchTablesByFuzzyName_listed f dbmgr pattern names :
  value (client.GetTableList dbmgr) = (names, None) →
  let run := search.searchTablesByFuzzyName f dbmgr pattern in
  let passing := List.filter (Spec.name_passes (strings.ToLower f) pattern) names in
  Spec.describe_calls (trace run) = passing ∧
  value run = omap (Spec.resolve dbmgr) passing.
Proof.
  intros Hlist. unfold search.searchTablesByFuzzyName.
  pose proof (GetTableList_describe_calls dbmgr) as Hnone.
  destruct (fuzzy_loop_spec f dbmgr pattern names []) as [Hcalls Hval].
  run_simpl. rewrite Hnone, Hlist. run_simpl. by rewrite Hcalls, Hval.
Qed.

(** C6: with a name pattern and no tag value, the names that pass the
    name filter, that is, the names submitted to identifier resolution,
    are exactly the listed names that contain the pattern as a literal
    substring or whose clamped similarity score, lower-cased pattern
    against lower-cased name, is at least 80; the result holds one entry
    for each of them that resolves, in listing order. *)
Theorem name_filter f dbmgr pattern names :
  pattern ≠ "" →
  value (client.GetTableList dbmgr) = (names, None) →
  let run := search.ExecuteSearch f dbmgr pattern "" in
  let passing := List.filter (Spec.name_passes (strings.ToLower f) pattern) names in
  Spec.describe_calls (trace run) = passing ∧
  value run = omap (Spec.resolve dbmgr) passing.
Proof.
  intros Hpat Hlist. unfold search.ExecuteSearch.
  rewrite decide_False by (intros [_ H]; by apply H).
  rewrite (decide_True (P := pattern ≠ "")) by done.
  destruct (searchTablesByFuzzyName_listed f dbmgr pattern names Hlist)
    as [Hcalls Hval].
  run_simpl. rewrite Hcalls, Hval, report_describe_calls.
  split; [|done].
  destruct (bool_decide _); cbn; by rewrite !app_nil_r.
Qed.

Lemma name_filter_witness :
  let run := search.ExecuteSearch Sample.noUnicode Sample.shop "ORDERS" "" in
  Spec.describe_calls (trace run) = ["orders"] ∧
  value run = [search.table_entry "orders" "arn:orders"].
Proof.
  assert (Hpat : "ORDERS" ≠ "") by discriminate.
  exact (name_filter Sample.noUnicode Sample.shop "ORDERS" ["orders"; "users"]
           Hpat eq_refl).
Defined.

Example name_passes_examples :
  Spec.name_passes (strings.ToLower Sample.noUnicode) "order" "orders" = true ∧
  Spec.name_passes (strings.ToLower Sample.noUnicode) "ORDERS" "orders" = true ∧
  Spec.name_passes (strings.ToLower Sample.noUnicode) "usr" "users" = false ∧
  Spec.name_passes (strings.ToLower Sample.noUnicode) "order" "users" = false.
Proof. repeat split; vm_compute; reflexivity. Qed.

(** C9: with an empty name pattern and an empty tag value, [ExecuteSearch]
    logs an error and returns nil, and makes no call to the service. *)
Theorem search_without_conditions f dbmgr :
  let run := search.ExecuteSearch f dbmgr "" "" in
  value run = [] ∧
  repository_calls (trace run) = [] ∧
  log_records (trace run) =
    [(LvError, "Invalid search conditions: search table name or tag value should not be empty!")].
Proof. done. Qed.

(** ** A failing listing *)

Lemma per_table_calls_app t1 t2 :
  Spec.per_table_calls (t1 ++ t2) = Spec.per_table_calls t1 ++ Spec.per_table_calls t2.
Proof. apply List.filter_app. Qed.

#[global] Hint Rewrite per_table_calls_app : run.

Lemma per_table_calls_only_listing t :
  (∀ e, e ∈ t → e = EvNextPage ∨ ∃ msg, e = EvLog LvError msg) →
  Spec.per_table_calls t = [].
Proof.
  induction t as [|e t IH]; intros H; [done|].
  unfold Spec.per_table_calls in *. cbn.
  destruct (H e) as [->|[msg ->]]; [by left| |]; cbn;
    apply IH; intros e' He'; apply H; by right.
Qed.

Lemma GetTableList_per_table_calls dbmgr :
  Spec.per_table_calls (trace (client.GetTableList dbmgr)) = [].
Proof.
  apply per_table_calls_only_listing.
  apply (GetTableList_loop_spec (ListTablesPages dbmgr) []).
Qed.

(** [GetTableList] returns the names of the pages before the first
    failing one, together with that failure. *)
Lemma GetTableList_value dbmgr :
  value (client.GetTableList dbmgr)
  = (Spec.names_before_failure (ListTablesPages dbmgr),
     Spec.first_failure (ListTablesPages dbmgr)).
Proof. apply (GetTableList_loop_spec (ListTablesPages dbmgr) []). Qed.

(** The events of a listing: one [NextPage] for each page up to the first
    failing one, then the record of the failure. *)
Lemma GetTableList_loop_trace pages acc :
  trace (client.GetTableList_loop pages acc)
  = replicate (Notions.pages_requested pages) EvNextPage ++
    match Spec.first_failure pages with
    | Some _ => [EvLog LvError "Couldn't list tables. Here's why: %v"]
    | None => []
    end.
Proof.
  revert acc. induction pages as [|[e|names] pages IH]; intros acc; [done..|].
  cbn [client.GetTableList_loop Notions.pages_requested Spec.first_failure
       replicate app].
  run_simpl. by rewrite IH.
Qed.

Section ListingFails.
Variable f : string → string.
Variable dbmgr : Cloud.
Variable err : error.
Hypothesis Hfails : Spec.first_failure (ListTablesPages dbmgr) = Some err.

Abbreviation aborted :=
  (trace (client.GetTableList dbmgr)
     ++ [EvLog LvError "Error finding DynamoDB tables: %v"]).

Abbreviation closing :=
  [EvLog LvWarn "Empty search results - please check the search conditions, tableFuzzyName:%s - tagValue:%s";
   EvLog LvInfo "Search results:"].

Lemma GetTableList_listing_fails :
  let run := client.GetTableList dbmgr in
  value run = (Spec.names_before_failure (ListTablesPages dbmgr), Some err) ∧
  trace run
  = replicate (Notions.pages_requested (ListTablesPages dbmgr)) EvNextPage
      ++ [EvLog LvError "Couldn't list tables. Here's why: %v"].
Proof.
  cbv zeta. rewrite GetTableList_value, Hfails. split; [done|].
  unfold client.GetTableList. by rewrite GetTableList_loop_trace, Hfails.
Qed.

Lemma searchTablesByFuzzyName_listing_fails pattern :
  let run := search.searchTablesByFuzzyName f dbmgr pattern in
  value run = [] ∧ trace run = aborted.
Proof.
  unfold search.searchTablesByFuzzyName. run_simpl.
  by rewrite GetTableList_value, Hfails.
Qed.

Lemma searchTablesByTagValue_listing_fails tagValue :
  let run := search.searchTablesByTagValue dbmgr tagValue None in
  value run = [] ∧ trace run = aborted.
Proof.
  unfold search.searchTablesByTagValue. run_simpl.
  by rewrite GetTableList_value, Hfails.
Qed.

Lemma ExecuteSearch_by_name_listing_fails pattern :
  pattern ≠ "" →
  let run := search.ExecuteSearch f dbmgr pattern "" in
  value run = [] ∧
  trace run
  = EvLog LvInfo "Begin to search the matched tables via fuzzy name:%s, ..."
      :: aborted ++ closing.
Proof.
  intros Hp. unfold search.ExecuteSearch.
  rewrite (decide_False (P := pattern ≠ "" ∧ "" ≠ "")) by (intros [_ H]; by apply H).
  rewrite (decide_True (P := pattern ≠ "")) by done.
  destruct (searchTablesByFuzzyName_listing_fails pattern) as [Hv Ht].
  run_simpl. rewrite Hv, Ht. cbn. by rewrite <- app_assoc.
Qed.

Lemma ExecuteSearch_by_tag_listing_fails tagValue :
  tagValue ≠ "" →
  let run := search.ExecuteSearch f dbmgr "" tagValue in
  value run = [] ∧
  trace run
  = EvLog LvInfo "Begin to search the matched tables via tag:%s, ..."
      :: aborted ++ closing.
Proof.
  intros Hp. unfold search.ExecuteSearch.
  rewrite (decide_False (P := "" ≠ "" ∧ tagValue ≠ "")) by (by intros [H _]).
  rewrite (decide_False (P := "" ≠ "")) by (intros H; by apply H).
  rewrite (decide_True (P := tagValue ≠ "")) by done.
  destruct (searchTablesByTagValue_listing_fails tagValue) as [Hv Ht].
  run_simpl. rewrite Hv, Ht. cbn. by rewrite <- app_assoc.
Qed.

(** With both filters the name step aborts and hands the nil slice to the
    tag step, which opens a listing of its own. *)
Lemma ExecuteSearch_both_listing_fails pattern tagValue :
  pattern ≠ "" → tagValue ≠ "" →
  let run := search.ExecuteSearch f dbmgr pattern tagValue in
  let again := search.searchTablesByTagValue (AfterListing dbmgr) tagValue None in
  value run = value again ∧
  trace run
  = EvLog LvInfo "Begin to search the matched tables via fuzzy name:%s, tag:%s, ..."
      :: aborted ++ trace again
      ++ (if bool_decide (value again = [])
          then [EvLog LvWarn "Empty search results - please check the search conditions, tableFuzzyName:%s - tagValue:%s"]
          else [])
      ++ EvLog LvInfo "Search results:"
         :: replicate (length (value again)) (EvLog LvInfo "Table Name: %s, ARN: %s").
Proof.
  intros Hp Ht. unfold search.ExecuteSearch.
  rewrite (decide_True (P := pattern ≠ "" ∧ tagValue ≠ "")) by done.
  destruct (searchTablesByFuzzyName_listing_fails pattern) as [Hv Htr].
  run_simpl. rewrite Hv, Htr. cbn [search.names_of foldl].
  set (again := search.searchTablesByTagValue _ _ _).
  split; [done|].
  cbn [app]. f_equal. rewrite <- !app_assoc. do 3 f_equal.
  assert (Hrep : ∀ l, trace (search.report l)
            = replicate (length l) (EvLog LvInfo "Table Name: %s, ARN: %s")).
  { induction l as [|x l IH]; [done|]. cbn [search.report]. run_simpl.
    cbn. by rewrite IH. }
  rewrite Hrep. destruct (bool_decide _); cbn; by rewrite ?app_nil_r.
Qed.
End ListingFails.

(** C2 (as amended): when a page of the listing fails, [GetTableList]
    stops paging, logs the failure and returns the names accumulated so
    far together with the failure.  A discovery step whose listing fails
    (discovery by name, or by tag value when it lists the tables itself)
    aborts: after the listing it only logs the error, so it requests no
    further page and makes no describe, tag or update call, and it
    returns no result (nil) and no failure value: the accumulated names
    are dropped.  Discovery with one filter then warns of the empty
    result and returns nothing.  With both filters the name step aborts
    in the same way, and discovery returns nothing, with no call but the
    page requests, when the listing that the tag step then opens fails as
    well. *)
Theorem listing_failure_aborts f dbmgr err :
  Spec.first_failure (ListTablesPages dbmgr) = Some err →
  let listing := client.GetTableList dbmgr in
  let aborted :=
    trace listing ++ [EvLog LvError "Error finding DynamoDB tables: %v"] in
  let closing :=
    [EvLog LvWarn "Empty search results - please check the search conditions, tableFuzzyName:%s - tagValue:%s";
     EvLog LvInfo "Search results:"] in
  (value listing = (Spec.names_before_failure (ListTablesPages dbmgr), Some err) ∧
   trace listing
   = replicate (Notions.pages_requested (ListTablesPages dbmgr)) EvNextPage
       ++ [EvLog LvError "Couldn't list tables. Here's why: %v"]) ∧
  (∀ pattern,
     let run := search.searchTablesByFuzzyName f dbmgr pattern in
     value run = [] ∧ trace run = aborted) ∧
  (∀ tagValue,
     let run := search.searchTablesByTagValue dbmgr tagValue None in
     value run = [] ∧ trace run = aborted) ∧
  (∀ pattern, pattern ≠ "" →
     let run := search.ExecuteSearch f dbmgr pattern "" in
     value run = [] ∧
     trace run
     = EvLog LvInfo "Begin to search the matched tables via fuzzy name:%s, ..."
         :: aborted ++ closing) ∧
  (∀ tagValue, tagValue ≠ "" →
     let run := search.ExecuteSearch f dbmgr "" tagValue in
     value run = [] ∧
     trace run
     = EvLog LvInfo "Begin to search the matched tables via tag:%s, ..."
         :: aborted ++ closing) ∧
  (∀ pattern tagValue, pattern ≠ "" → tagValue ≠ "" →
     let run := search.ExecuteSearch f dbmgr pattern tagValue in
     let begin :=
       EvLog LvInfo "Begin to search the matched tables via fuzzy name:%s, tag:%s, ..." in
     (∃ rest, trace run = begin :: aborted ++ rest) ∧
     ∀ err', Spec.first_failure (ListTablesPages (AfterListing dbmgr)) = Some err' →
       value run = [] ∧
       trace run
       = begin :: aborted
           ++ (trace (client.GetTableList (AfterListing dbmgr))
                 ++ [EvLog LvError "Error finding DynamoDB tables: %v"])
           ++ closing).
Proof.
  intros Hfails. cbv zeta.
  split; [by apply GetTableList_listing_fails|].
  split; [intros pattern; by eapply searchTablesByFuzzyName_listing_fails|].
  split; [intros tagValue; by eapply searchTablesByTagValue_listing_fails|].
  split; [intros pattern Hp; by eapply ExecuteSearch_by_name_listing_fails|].
  split; [intros tagValue Ht; by eapply ExecuteSearch_by_tag_listing_fails|].
  intros pattern tagValue Hp Ht.
  destruct (ExecuteSearch_both_listing_fails f dbmgr err Hfails pattern tagValue Hp Ht)
    as [Hv Htr].
  split; [eexists; exact Htr|].
  intros err' Hfails'.
  destruct (searchTablesByTagValue_listing_fails (AfterListing dbmgr) err' Hfails' tagValue)
    as [Hv' Htr'].
  rewrite Hv, Htr, Hv', Htr'. split; [done|].
  cbn. by rewrite <- !app_assoc.
Qed.

Lemma listing_failure_aborts_witness :
  let dbmgr := Sample.shop_listing_fails in
  value (client.GetTableList dbmgr)
    = (["orders"; "users"], Some "ThrottlingException") ∧
  let run := search.ExecuteSearch Sample.noUnicode dbmgr "order" "" in
  value run = [] ∧
  trace run
  = [EvLog LvInfo "Begin to search the matched tables via fuzzy name:%s, ...";
     EvNextPage; EvNextPage;
     EvLog LvError "Couldn't list tables. Here's why: %v";
     EvLog LvError "Error finding DynamoDB tables: %v";
     EvLog LvWarn "Empty search results - please check the search conditions, tableFuzzyName:%s - tagValue:%s";
     EvLog LvInfo "Search results:"].
Proof.
  assert (Hp : "order" ≠ "") by discriminate.
  pose proof (listing_failure_aborts Sample.noUnicode Sample.shop_listing_fails
                "ThrottlingException" eq_refl) as H.
  cbv zeta in H. destruct H as ([Hlist _] & _ & _ & Hname & _).
  exact (conj Hlist (Hname "order" Hp)).
Defined.

(** C2 (as stated) fails: the listing yields "orders" and "users" before
    it fails, "orders" matches the pattern "order" and resolves, yet
    discovery returns nothing. *)
Lemma listing_failure_counterexample :
  let dbmgr := Sample.shop_listing_fails in
  value (client.GetTableList dbmgr)
    = (["orders"; "users"], Some "ThrottlingException") ∧
  value (search.fuzzy_loop Sample.noUnicode dbmgr "order" ["orders"; "users"] [])
    = [search.table_entry "orders" "arn:orders"] ∧
  value (search.ExecuteSearch Sample.noUnicode dbmgr "order" "") = [].
Proof. repeat split; vm_compute; reflexivity. Qed.

(** With both filters, a listing that fails for the name step and
    succeeds when the tag step opens it again: the result is that of
    discovery by the tag value alone. *)
Example listing_opened_again_with_both_filters :
  let run := search.ExecuteSearch Sample.noUnicode Sample.shop_listing_recovers
               "users" "prod" in
  value run = [search.table_entry "orders" "arn:orders"] ∧
  Notions.page_calls (trace run) = 3%nat.
Proof. split; vm_compute; reflexivity. Qed.

(** ** Name pattern and tag value together *)

(** C5 fails on the code: no table name matches "zzzzzzzz", so discovery
    by name alone returns nothing; the list of matching names handed to
    the tag filter is then the nil slice, which the tag filter takes as
    "no list given": it lists every table and returns "orders", which is
    not among the results of discovery by name alone. *)
Theorem and_semantics_broken_without_name_match :
  let both := value (search.ExecuteSearch Sample.noUnicode Sample.shop "zzzzzzzz" "prod") in
  let by_name := value (search.ExecuteSearch Sample.noUnicode Sample.shop "zzzzzzzz" "") in
  both = [search.table_entry "orders" "arn:orders"] ∧
  by_name = [] ∧
  ¬ (both ⊆ by_name).
Proof.
  assert (Hboth : value (search.ExecuteSearch Sample.noUnicode Sample.shop
                           "zzzzzzzz" "prod")
                  = [search.table_entry "orders" "arn:orders"])
    by (vm_compute; reflexivity).
  assert (Hname : value (search.ExecuteSearch Sample.noUnicode Sample.shop
                           "zzzzzzzz" "") = [])
    by (vm_compute; reflexivity).
  cbv zeta. rewrite Hboth, Hname. split; [done|]. split; [done|].
  intros Hsub. specialize (Hsub (search.table_entry "orders" "arn:orders")).
  eapply elem_of_nil, Hsub. by left.
Qed.

(** When some name matches, the two filters do combine as a conjunction. *)
Lemma tag_loop_spec tagValue tags :
  value (search.tag_loop tagValue tags) = Spec.has_tag_value tagValue tags ∧
  Spec.per_table_calls (trace (search.tag_loop tagValue tags)) = [].
Proof.
  induction tags as [|tag tags [IHv IHc]]; [done|].
  cbn [search.tag_loop Spec.has_tag_value existsb]. run_simpl.
  destruct (decide (Value tag = tagValue)) as [Heq|Hne].
  - by rewrite bool_decide_eq_true_2.
  - rewrite bool_decide_eq_false_2 by done. by rewrite IHv, IHc.
Qed.

Lemma tag_value_loop_spec dbmgr tagValue names acc :
  value (search.tag_value_loop dbmgr tagValue names acc)
  = acc ++ omap (Spec.resolve_tagged dbmgr tagValue) names.
Proof.
  revert acc. induction names as [|name names IH]; intros acc.
  - cbn. by rewrite app_nil_r.
  - cbn [search.tag_value_loop omap list_omap]. run_simpl.
    unfold client.GetTableArn, Spec.resolve_tagged at 1. run_simpl.
    destruct (DescribeTable dbmgr name) as [e|table]; run_simpl; cbn [value snd fst].
    + run_simpl. apply IH.
    + unfold client.GetTableTags. run_simpl.
      destruct (ListTagsOfResource dbmgr (TableArn table)) as [e|tags];
        run_simpl; cbn [value snd fst].
      * run_simpl. apply IH.
      * rewrite (proj1 (tag_loop_spec tagValue tags)), IH.
        destruct (Spec.has_tag_value tagValue tags); [|done].
        by rewrite <- app_assoc.
Qed.

Lemma table_entry_name name arn :
  search.table_entry name arn !! "Name" = Some name.
Proof. unfold search.table_entry. apply lookup_insert_eq. Qed.

Lemma resolve_tagged_resolve dbmgr tagValue name e :
  Spec.resolve_tagged dbmgr tagValue name = Some e → Spec.resolve dbmgr name = Some e.
Proof.
  unfold Spec.resolve_tagged, Spec.resolve.
  destruct (DescribeTable dbmgr name) as [|table]; [done|].
  destruct (ListTagsOfResource dbmgr (TableArn table)) as [|tags]; [done|].
  by destruct (Spec.has_tag_value tagValue tags).
Qed.

(** The names collected from the name matches: the names that resolved,
    or the nil slice when there is none. *)
Lemma names_of_resolved dbmgr names :
  search.names_of (omap (Spec.resolve dbmgr) names) =
  let resolved :=
    List.filter (fun n => bool_decide (is_Some (Spec.resolve dbmgr n))) names in
  match resolved with [] => None | _ => Some resolved end.
Proof.
  unfold search.names_of.
  enough (H : ∀ acc,
    foldl (fun tableList entry =>
             match entry !! "Name" with
             | Some name => search.append_name tableList name
             | None => tableList
             end) acc (omap (Spec.resolve dbmgr) names)
    = match List.filter (fun n => bool_decide (is_Some (Spec.resolve dbmgr n))) names with
      | [] => acc
      | r => Some (default [] acc ++ r)
      end).
  { rewrite H. cbv zeta. by destruct (List.filter _ _). }
  induction names as [|name names IH]; intros acc; [done|].
  cbn [omap list_omap List.filter].
  destruct (Spec.resolve dbmgr name) as [e|] eqn:Hres.
  - rewrite bool_decide_eq_true_2 by done. cbn [foldl].
    assert (e !! "Name" = Some name) as ->.
    { unfold Spec.resolve in Hres. destruct (DescribeTable dbmgr name); simplify_eq.
      apply table_entry_name. }
    rewrite IH. unfold search.append_name. cbn [default].
    destruct (List.filter _ names); [done|]. unfold id. by rewrite <- app_assoc.
  - rewrite bool_decide_eq_false_2 by (by intros [? ?]). apply IH.
Qed.

Lemma and_semantics_with_name_match f dbmgr pattern tagValue names :
  pattern ≠ "" → tagValue ≠ "" →
  value (client.GetTableList dbmgr) = (names, None) →
  value (search.ExecuteSearch f dbmgr pattern "") ≠ [] →
  ∀ e, e ∈ value (search.ExecuteSearch f dbmgr pattern tagValue) →
    e ∈ value (search.ExecuteSearch f dbmgr pattern "") ∧
    ∃ name, name ∈ names ∧ Spec.resolve_tagged dbmgr tagValue name = Some e.
Proof.
  intros Hpat Htag Hlist.
  destruct (searchTablesByFuzzyName_listed f dbmgr pattern names Hlist)
    as [_ Hval]. cbv zeta in Hval.
  unfold search.ExecuteSearch.
  rewrite (decide_True (P := pattern ≠ "" ∧ tagValue ≠ "")) by done.
  rewrite (decide_False (P := pattern ≠ "" ∧ "" ≠ "")) by (intros [_ H]; by apply H).
  rewrite (decide_True (P := pattern ≠ "")) by done.
  run_simpl. rewrite Hval, names_of_resolved. cbv zeta.
  set (passing := List.filter _ names).
  intros Hne e He.
  destruct (List.filter _ passing) as [|n resolved] eqn:Hres.
  { exfalso. apply Hne. clear -Hres.
    induction passing as [|p passing IH]; [done|].
    cbn [List.filter omap list_omap] in *.
    destruct (Spec.resolve dbmgr p); [|by apply IH].
    by rewrite bool_decide_eq_true_2 in Hres. }
  unfold search.searchTablesByTagValue in He.
  rewrite tag_value_loop_spec in He. cbn [app] in He.
  apply list_elem_of_omap in He as (name & Hin & Htagged).
  assert (Hpass : name ∈ passing).
  { rewrite <- Hres in Hin. apply list_elem_of_In, List.filter_In in Hin as [Hin _].
    by apply list_elem_of_In. }
  split.
  - apply list_elem_of_omap. exists name. split; [done|].
    by eapply resolve_tagged_resolve.
  - exists name. split; [|done].
    apply list_elem_of_In in Hpass. apply List.filter_In in Hpass as [Hin' _].
    by apply list_elem_of_In.
Qed.

(** * Further properties *)

(** ** The scorer *)

(** With equal insertion and deletion costs and a symmetric match test,
    the recurrence is symmetric. *)
Lemma cell_symmetric op s t :
  levenshtein.InsCost op = levenshtein.DelCost op →
  (∀ x y, levenshtein.Matches op x y = levenshtein.Matches op y x) →
  ∀ i j, Spec.cell op s t i j = Spec.cell op t s j i.
Proof.
  intros Hcost Hsym. induction i as [|i IHi]; intros j.
  - destruct j as [|j]; [by rewrite !cell_zero|].
    by rewrite cell_zero, cell_succ_zero, Hcost.
  - induction j as [|j IHj].
    + by rewrite cell_zero, cell_succ_zero, Hcost.
    + rewrite !cell_succ_succ, (IHi (S j)), (IHi j), IHj, Hcost,
        (Hsym (s !!! i) (t !!! j)).
      lia.
Qed.

(** X1: the score does not depend on the order of its two arguments. *)
Theorem FuzzyMatchRatio_symmetric a b : FuzzyMatchRatio a b = FuzzyMatchRatio b a.
Proof.
  unfold FuzzyMatchRatio. rewrite !DistanceForStrings_edit_distance.
  unfold Spec.edit_distance.
  rewrite (cell_symmetric levenshtein.DefaultOptions (GoString.runes a)
             (GoString.runes b)); [|done|intros x y; apply Z.eqb_sym].
  destruct (Z.gtb_spec (GoString.len b) (GoString.len a)),
           (Z.gtb_spec (GoString.len a) (GoString.len b)); try lia; try done.
  by replace (GoString.len b) with (GoString.len a) by lia.
Qed.

(** The distance of a sequence to itself is 0. *)
Lemma cell_default_diagonal s i :
  Spec.cell levenshtein.DefaultOptions s s i i = 0.
Proof.
  induction i as [|i IH]; [done|].
  pose proof (cell_default_bounds s s (S i) (S i)) as Hb.
  rewrite cell_succ_succ in Hb |- *. rewrite IH in *.
  cbn [levenshtein.Matches levenshtein.DefaultOptions] in *.
  rewrite Z.eqb_refl in *. lia.
Qed.

(** A distance of 0 means that the two sequences are the same. *)
Lemma cell_default_zero s t i j :
  (i ≤ length s)%nat → (j ≤ length t)%nat →
  Spec.cell levenshtein.DefaultOptions s t i j = 0 →
  i = j ∧ take i s = take j t.
Proof.
  revert j. induction i as [|i IHi]; intros j Hi Hj.
  - rewrite cell_zero. cbn. destruct j; [done|lia].
  - destruct j as [|j]; [rewrite cell_succ_zero; cbn; lia|].
    rewrite cell_succ_succ.
    pose proof (cell_default_bounds s t i (S j)).
    pose proof (cell_default_bounds s t i j).
    pose proof (cell_default_bounds s t (S i) j).
    cbn [levenshtein.Matches levenshtein.DefaultOptions levenshtein.DelCost
         levenshtein.InsCost levenshtein.SubCost].
    destruct (Z.eqb_spec (s !!! i) (t !!! j)) as [Heq|Hne]; [|lia].
    intros Hmin. destruct (IHi j) as [-> Htake]; [lia|lia|lia|].
    split; [done|].
    destruct (lookup_lt_is_Some_2 s j) as [x Hx]; [lia|].
    destruct (lookup_lt_is_Some_2 t j) as [y Hy]; [lia|].
    rewrite (take_S_r _ _ _ Hx), (take_S_r _ _ _ Hy), Htake.
    rewrite (list_lookup_total_correct _ _ _ Hx),
      (list_lookup_total_correct _ _ _ Hy) in Heq. by subst.
Qed.

Lemma edit_distance_default_zero s t :
  Spec.edit_distance levenshtein.DefaultOptions s t = 0 ↔ s = t.
Proof.
  split.
  - intros H. apply cell_default_zero in H as [Hlen Htake]; [|done|done].
    by rewrite !firstn_all in Htake.
  - intros ->. apply cell_default_diagonal.
Qed.

Lemma FuzzyMatchRatio_100_iff a b :
  GoString.len a < 2 ^ 56 → GoString.len b < 2 ^ 56 →
  FuzzyMatchRatio a b = 100 ↔ GoString.runes a = GoString.runes b.
Proof.
  intros Ha Hb. rewrite FuzzyMatchRatio_formula by done. cbv zeta.
  rewrite <- edit_distance_default_zero.
  pose proof (edit_distance_default_bounds (GoString.runes a) (GoString.runes b)) as Hd.
  pose proof (rune_count_le_len a) as Hra. pose proof (rune_count_le_len b) as Hrb.
  unfold Spec.rune_count in *.
  set (d := Spec.edit_distance _ _ _) in *.
  set (m := Z.max (GoString.len a) (GoString.len b)) in *.
  destruct (Z.eqb_spec m 0) as [Hm|Hm]; [lia|].
  assert (0 < m) by (unfold GoString.len in *; lia).
  split.
  - intros Hq. destruct (Z.le_gt_cases d m) as [Hle|Hgt].
    + rewrite Z.quot_div_nonneg in Hq by lia.
      pose proof (Z.mul_div_le ((m - d) * 100) m) as Hmul.
      rewrite Hq in Hmul. lia.
    + assert (Z.quot ((m - d) * 100) m ≤ 0); [|lia].
      replace ((m - d) * 100) with (- ((d - m) * 100)) by lia.
      rewrite Z.quot_opp_l by lia.
      pose proof (Z.quot_pos ((d - m) * 100) m). lia.
  - intros ->. rewrite Z.sub_0_r, Z.mul_comm. apply Z.quot_mul. lia.
Qed.

(** X2: for strings shorter than 2^56 bytes the raw ratio is 100 exactly
    when the two strings decode to the same sequence of code points; in
    particular every string scores 100 against itself. *)
Theorem FuzzyMatchRatio_100 a b :
  GoString.len a < 2 ^ 56 → GoString.len b < 2 ^ 56 →
  FuzzyMatchRatio a b = 100 ↔ GoString.runes a = GoString.runes b.
Proof. apply FuzzyMatchRatio_100_iff. Qed.

Lemma FuzzyMatchRatio_100_witness :
  FuzzyMatchRatio "orders" "orders" = 100 ↔
  GoString.runes "orders" = GoString.runes "orders".
Proof.
  apply (FuzzyMatchRatio_100 "orders" "orders"); vm_compute; reflexivity.
Defined.

Lemma FuzzyMatchRatio_bounds a b :
  GoString.len a < 2 ^ 56 → GoString.len b < 2 ^ 56 →
  -100 ≤ FuzzyMatchRatio a b ≤ 100 ∧
  NormalizeRatio (FuzzyMatchRatio a b) = Z.max 0 (FuzzyMatchRatio a b).
Proof.
  intros Ha Hb.
  assert (Hr : -100 ≤ FuzzyMatchRatio a b ≤ 100).
  { rewrite FuzzyMatchRatio_formula by done. cbv zeta.
    pose proof (edit_distance_default_bounds (GoString.runes a) (GoString.runes b)) as Hd.
    pose proof (rune_count_le_len a) as Hra. pose proof (rune_count_le_len b) as Hrb.
    unfold Spec.rune_count in *.
    set (d := Spec.edit_distance _ _ _) in *.
    set (m := Z.max (GoString.len a) (GoString.len b)) in *.
    destruct (Z.eqb_spec m 0) as [Hm|Hm]; [lia|].
    assert (0 < m) by (unfold GoString.len in *; lia).
    destruct (Z.le_gt_cases d m) as [Hle|Hgt].
    - rewrite Z.quot_div_nonneg by lia. split.
      + pose proof (Z.div_pos ((m - d) * 100) m). lia.
      + apply Z.div_le_upper_bound; lia.
    - replace ((m - d) * 100) with (- ((d - m) * 100)) by lia.
      rewrite Z.quot_opp_l by lia.
      pose proof (Z.quot_pos ((d - m) * 100) m).
      assert (Z.quot ((d - m) * 100) m ≤ 100); [|lia].
      rewrite Z.quot_div_nonneg by lia. apply Z.div_le_upper_bound; lia. }
  split; [done|]. unfold NormalizeRatio.
  destruct (Z.ltb_spec (FuzzyMatchRatio a b) 0),
           (Z.gtb_spec (FuzzyMatchRatio a b) 100); lia.
Qed.

(** X3: for strings shorter than 2^56 bytes the raw ratio lies between
    -100 and 100; the lower clamp of [NormalizeRatio] is needed, the upper
    one never acts. *)
Theorem FuzzyMatchRatio_range a b :
  GoString.len a < 2 ^ 56 → GoString.len b < 2 ^ 56 →
  -100 ≤ FuzzyMatchRatio a b ≤ 100 ∧
  NormalizeRatio (FuzzyMatchRatio a b) = Z.max 0 (FuzzyMatchRatio a b).
Proof. apply FuzzyMatchRatio_bounds. Qed.

Lemma FuzzyMatchRatio_range_witness :
  -100 ≤ FuzzyMatchRatio "ab" "cd" ≤ 100 ∧
  NormalizeRatio (FuzzyMatchRatio "ab" "cd") = Z.max 0 (FuzzyMatchRatio "ab" "cd").
Proof.
  apply (FuzzyMatchRatio_range "ab" "cd"); vm_compute; reflexivity.
Defined.

(** X4: what the threshold 80 means.  For strings shorter than 2^56
    bytes the clamped score reaches 80 exactly when five times the
    distance (insertion and deletion 1, substitution 2, over code points)
    is at most the larger byte length. *)
Theorem threshold_80 a b :
  GoString.len a < 2 ^ 56 → GoString.len b < 2 ^ 56 →
  FuzzyRatio ≤ NormalizeRatio (FuzzyMatchRatio a b) ↔
  5 * Spec.edit_distance levenshtein.DefaultOptions
        (GoString.runes a) (GoString.runes b)
    ≤ Z.max (GoString.len a) (GoString.len b).
Proof.
  intros Ha Hb. unfold FuzzyRatio.
  destruct (FuzzyMatchRatio_bounds a b Ha Hb) as [_ ->].
  rewrite FuzzyMatchRatio_formula by done. cbv zeta.
  pose proof (edit_distance_default_bounds (GoString.runes a) (GoString.runes b)) as Hd.
  set (d := Spec.edit_distance _ _ _) in *.
  set (m := Z.max (GoString.len a) (GoString.len b)) in *.
  destruct (Z.eqb_spec m 0) as [Hm|Hm].
  - pose proof (rune_count_le_len a). pose proof (rune_count_le_len b).
    unfold Spec.rune_count in *. lia.
  - assert (0 < m) by (unfold GoString.len in *; lia).
    destruct (Z.le_gt_cases d m) as [Hle|Hgt].
    + rewrite Z.quot_div_nonneg by lia.
      pose proof (Z.div_pos ((m - d) * 100) m).
      split.
      * intros Hq. pose proof (Z.mul_div_le ((m - d) * 100) m) as Hmul. nia.
      * intros H5. assert (80 ≤ (m - d) * 100 / m); [|lia].
        apply Z.div_le_lower_bound; lia.
    + replace ((m - d) * 100) with (- ((d - m) * 100)) by lia.
      rewrite Z.quot_opp_l by lia.
      pose proof (Z.quot_pos ((d - m) * 100) m). lia.
Qed.

Lemma threshold_80_witness :
  FuzzyRatio ≤ NormalizeRatio (FuzzyMatchRatio "orders" "order") ↔
  5 * Spec.edit_distance levenshtein.DefaultOptions
        (GoString.runes "orders") (GoString.runes "order")
    ≤ Z.max (GoString.len "orders") (GoString.len "order").
Proof.
  apply (threshold_80 "orders" "order"); vm_compute; reflexivity.
Defined.

(** ** Discovery reads, it never writes *)

#[global] Hint Rewrite mutating_calls_app : run.

Ltac run_step := cbn [value trace fst snd]; run_simpl; cbn [value trace fst snd].

Lemma mutating_calls_only_listing t :
  (∀ e, e ∈ t → e = EvNextPage ∨ ∃ msg, e = EvLog LvError msg) →
  mutating_calls t = [].
Proof.
  induction t as [|e t IH]; intros H; [done|].
  unfold mutating_calls in *. cbn.
  destruct (H e) as [->|[msg ->]]; [by left| |]; cbn;
    apply IH; intros e' He'; apply H; by right.
Qed.

Lemma GetTableList_mutating_calls dbmgr :
  mutating_calls (trace (client.GetTableList dbmgr)) = [].
Proof.
  apply mutating_calls_only_listing.
  apply (GetTableList_loop_spec (ListTablesPages dbmgr) []).
Qed.

Lemma GetTableArn_mutating_calls dbmgr name :
  mutating_calls (trace (client.GetTableArn dbmgr name)) = [].
Proof. unfold client.GetTableArn. by destruct (DescribeTable dbmgr name). Qed.

Lemma GetTableTags_mutating_calls dbmgr arn :
  mutating_calls (trace (client.GetTableTags dbmgr arn)) = [].
Proof. unfold client.GetTableTags. by destruct (ListTagsOfResource dbmgr arn). Qed.

Lemma fuzzy_loop_mutating_calls f dbmgr pattern names acc :
  mutating_calls (trace (search.fuzzy_loop f dbmgr pattern names acc)) = [].
Proof.
  revert acc. induction names as [|name names IH]; intros acc; [done|].
  assert (Hpass : mutating_calls (trace (
      '(tableArn, err) ← client.GetTableArn dbmgr name;
      match err with
      | Some _ =>
        log LvWarn "Error getting table ARN: %v";;
        search.fuzzy_loop f dbmgr pattern names acc
      | None =>
        log LvInfo "searchTablesByFuzzyName: fuzzyname:%s - tablename:%s - tableArn: %s";;
        search.fuzzy_loop f dbmgr pattern names
          (acc ++ [search.table_entry name tableArn])
      end)) = []).
  { run_simpl. rewrite GetTableArn_mutating_calls.
    destruct (client.GetTableArn dbmgr name) as [t [arn [e|]]];
      run_step; by rewrite IH. }
  cbn [search.fuzzy_loop].
  destruct (GoString.Contains name pattern); cbn [negb].
  - rewrite trace_bind, value_ret, trace_ret. apply Hpass.
  - rewrite trace_bind, value_bind, trace_bind, value_ret, trace_ret, trace_log.
    rewrite !mutating_calls_app.
    destruct (_ <? _); [apply IH|apply Hpass].
Qed.

Lemma tag_loop_mutating_calls tagValue tags :
  mutating_calls (trace (search.tag_loop tagValue tags)) = [].
Proof.
  induction tags as [|tag tags IH]; [done|].
  cbn [search.tag_loop]. run_simpl. by destruct (decide _).
Qed.

Lemma tag_value_loop_mutating_calls dbmgr tagValue names acc :
  mutating_calls (trace (search.tag_value_loop dbmgr tagValue names acc)) = [].
Proof.
  revert acc. induction names as [|name names IH]; intros acc; [done|].
  cbn [search.tag_value_loop]. run_simpl.
  rewrite GetTableArn_mutating_calls.
  destruct (client.GetTableArn dbmgr name) as [t [arn [e|]]]; run_step.
  - by rewrite IH.
  - rewrite GetTableTags_mutating_calls.
    destruct (client.GetTableTags dbmgr arn) as [t' [tags [e|]]]; run_step.
    + by rewrite IH.
    + by rewrite tag_loop_mutating_calls, IH.
Qed.

Lemma report_mutating_calls results :
  mutating_calls (trace (search.report results)) = [].
Proof.
  induction results as [|r results IH]; [done|].
  cbn [search.report]. run_simpl. by rewrite IH.
Qed.

Lemma searchTablesByFuzzyName_mutating_calls f dbmgr pattern :
  mutating_calls (trace (search.searchTablesByFuzzyName f dbmgr pattern)) = [].
Proof.
  unfold search.searchTablesByFuzzyName. run_simpl.
  rewrite GetTableList_mutating_calls.
  destruct (client.GetTableList dbmgr) as [t [names [e|]]]; run_step; [done|].
  by rewrite fuzzy_loop_mutating_calls.
Qed.

Lemma searchTablesByTagValue_mutating_calls dbmgr tagValue tableList :
  mutating_calls (trace (search.searchTablesByTagValue dbmgr tagValue tableList)) = [].
Proof.
  unfold search.searchTablesByTagValue. destruct tableList as [l|].
  - apply tag_value_loop_mutating_calls.
  - run_simpl. rewrite GetTableList_mutating_calls.
    destruct (client.GetTableList dbmgr) as [t [names [e|]]]; run_step; [done|].
    by rewrite tag_value_loop_mutating_calls.
Qed.

Lemma ExecuteSearch_mutating_calls f dbmgr pattern tagValue :
  mutating_calls (trace (search.ExecuteSearch f dbmgr pattern tagValue)) = [].
Proof.
  unfold search.ExecuteSearch. repeat case_decide; run_simpl;
    rewrite ?searchTablesByFuzzyName_mutating_calls,
      ?searchTablesByTagValue_mutating_calls, ?report_mutating_calls;
    try done; by destruct (bool_decide _).
Qed.

(** X5: discovery never issues a mutating call, whatever the pattern, the
    tag value and the answers of the service. *)
Theorem discovery_never_mutates f dbmgr pattern tagValue :
  mutating_calls (trace (search.ExecuteSearch f dbmgr pattern tagValue)) = [].
Proof. apply ExecuteSearch_mutating_calls. Qed.

(** ** Discovery by tag value *)

Lemma tag_calls_app t1 t2 :
  Notions.tag_calls (t1 ++ t2) = Notions.tag_calls t1 ++ Notions.tag_calls t2.
Proof. apply omap_app. Qed.

#[global] Hint Rewrite tag_calls_app : run.

Lemma tag_loop_calls tagValue tags :
  Spec.describe_calls (trace (search.tag_loop tagValue tags)) = [] ∧
  Notions.tag_calls (trace (search.tag_loop tagValue tags)) = [].
Proof.
  induction tags as [|tag tags [IH1 IH2]]; [done|].
  cbn [search.tag_loop]. run_simpl. by destruct (decide _).
Qed.

(** The tag loop describes every name once, in order, and asks for the
    tags of every name that resolves. *)
Lemma tag_value_loop_calls dbmgr tagValue names acc :
  let run := search.tag_value_loop dbmgr tagValue names acc in
  Spec.describe_calls (trace run) = names ∧
  Notions.tag_calls (trace run) = omap (Notions.arn_of dbmgr) names.
Proof.
  revert acc. induction names as [|name names IH]; intros acc; [done|].
  cbn [search.tag_value_loop omap list_omap]. cbv zeta.
  unfold client.GetTableArn, Notions.arn_of at 1.
  destruct (DescribeTable dbmgr name) as [e|table]; run_step.
  - destruct (IH acc) as [-> ->]. done.
  - unfold client.GetTableTags.
    destruct (ListTagsOfResource dbmgr (TableArn table)) as [e|tags]; run_step.
    + destruct (IH acc) as [-> ->]. done.
    + destruct (tag_loop_calls tagValue tags) as [-> ->].
      set (acc' := if value (search.tag_loop tagValue tags) then _ else _).
      destruct (IH acc') as [-> ->]. done.
Qed.

Lemma GetTableList_tag_calls dbmgr :
  Notions.tag_calls (trace (client.GetTableList dbmgr)) = [].
Proof.
  pose proof (GetTableList_loop_spec (ListTablesPages dbmgr) []) as [_ H].
  fold (client.GetTableList dbmgr) in H.
  induction (trace (client.GetTableList dbmgr)) as [|e t IH]; [done|].
  unfold Notions.tag_calls in *. cbn.
  destruct (H e) as [->|[msg ->]]; [by left| |]; cbn;
    apply IH; intros e' He'; apply H; by right.
Qed.

Lemma report_tag_calls results :
  Notions.tag_calls (trace (search.report results)) = [].
Proof.
  induction results as [|r results IH]; [done|].
  cbn [search.report]. run_simpl. by rewrite IH.
Qed.

(** X6: with a tag value and no name pattern, and a listing that
    succeeds, discovery describes every listed table once, in listing
    order, asks for the tags of each one that resolves, and returns an
    entry for exactly the tables that resolve, whose tags could be read
    and hold a tag with that value; a table whose description or tags
    cannot be read is skipped. *)
Theorem tag_filter f dbmgr tagValue names :
  tagValue ≠ "" →
  value (client.GetTableList dbmgr) = (names, None) →
  let run := search.ExecuteSearch f dbmgr "" tagValue in
  value run = omap (Spec.resolve_tagged dbmgr tagValue) names ∧
  Spec.describe_calls (trace run) = names ∧
  Notions.tag_calls (trace run) = omap (Notions.arn_of dbmgr) names.
Proof.
  intros Htag Hlist. unfold search.ExecuteSearch.
  rewrite (decide_False (P := "" ≠ "" ∧ tagValue ≠ "")) by (by intros [H _]).
  rewrite (decide_False (P := "" ≠ "")) by (intros H; by apply H).
  rewrite (decide_True (P := tagValue ≠ "")) by done.
  unfold search.searchTablesByTagValue. run_simpl.
  rewrite Hlist. run_step.
  rewrite GetTableList_describe_calls, GetTableList_tag_calls,
    report_describe_calls, report_tag_calls, tag_value_loop_spec.
  destruct (tag_value_loop_calls dbmgr tagValue names []) as [-> ->].
  cbn [app]. repeat split; destruct (bool_decide _); cbn; by rewrite ?app_nil_r.
Qed.

Lemma tag_filter_witness :
  let run := search.ExecuteSearch Sample.noUnicode Sample.shop "" "prod" in
  value run = [search.table_entry "orders" "arn:orders"] ∧
  Spec.describe_calls (trace run) = ["orders"; "users"] ∧
  Notions.tag_calls (trace run) = ["arn:orders"; "arn:users"].
Proof.
  assert (Htag : "prod" ≠ "") by discriminate.
  exact (tag_filter Sample.noUnicode Sample.shop "prod" ["orders"; "users"]
           Htag eq_refl).
Defined.

(** ** What discovery returns, in every case *)

Section DiscoveryValue.
Variable f : string → string.

Lemma searchTablesByFuzzyName_value dbmgr pattern :
  value (search.searchTablesByFuzzyName f dbmgr pattern) =
  match Spec.first_failure (ListTablesPages dbmgr) with
  | Some _ => []
  | None =>
    omap (Spec.resolve dbmgr)
      (List.filter (Spec.name_passes (strings.ToLower f) pattern)
         (Spec.names_before_failure (ListTablesPages dbmgr)))
  end.
Proof.
  destruct (Spec.first_failure (ListTablesPages dbmgr)) as [err|] eqn:Hf.
  - by apply (searchTablesByFuzzyName_listing_fails f dbmgr err Hf).
  - apply searchTablesByFuzzyName_listed. by rewrite GetTableList_value, Hf.
Qed.

Lemma searchTablesByTagValue_value dbmgr tagValue tableList :
  value (search.searchTablesByTagValue dbmgr tagValue tableList) =
  match tableList with
  | Some names => omap (Spec.resolve_tagged dbmgr tagValue) names
  | None =>
    match Spec.first_failure (ListTablesPages dbmgr) with
    | Some _ => []
    | None =>
      omap (Spec.resolve_tagged dbmgr tagValue)
        (Spec.names_before_failure (ListTablesPages dbmgr))
    end
  end.
Proof.
  unfold search.searchTablesByTagValue. destruct tableList as [names|].
  - by rewrite tag_value_loop_spec.
  - run_simpl. rewrite GetTableList_value.
    destruct (Spec.first_failure (ListTablesPages dbmgr)); run_step; [done|].
    by rewrite tag_value_loop_spec.
Qed.

Lemma ExecuteSearch_value dbmgr pattern tagValue :
  value (search.ExecuteSearch f dbmgr pattern tagValue) =
  if decide (pattern ≠ "" ∧ tagValue ≠ "") then
    value (search.searchTablesByTagValue (AfterListing dbmgr) tagValue
             (search.names_of (value (search.searchTablesByFuzzyName f dbmgr pattern))))
  else if decide (pattern ≠ "") then
    value (search.searchTablesByFuzzyName f dbmgr pattern)
  else if decide (tagValue ≠ "") then
    value (search.searchTablesByTagValue dbmgr tagValue None)
  else [].
Proof. unfold search.ExecuteSearch. repeat case_decide; by run_step. Qed.

Lemma omap_resolve_tagged_resolved dbmgr tagValue names :
  omap (Spec.resolve_tagged dbmgr tagValue)
    (List.filter (fun n => bool_decide (is_Some (Spec.resolve dbmgr n))) names)
  = omap (Spec.resolve_tagged dbmgr tagValue) names.
Proof.
  induction names as [|name names IH]; [done|].
  cbn [List.filter omap list_omap].
  destruct (Spec.resolve_tagged dbmgr tagValue name) as [e|] eqn:Ht.
  - rewrite bool_decide_eq_true_2 by (by erewrite resolve_tagged_resolve).
    cbn [omap list_omap]. by rewrite Ht, IH.
  - destruct (bool_decide _); [|done]. cbn [omap list_omap]. by rewrite Ht, IH.
Qed.

Lemma resolved_nil dbmgr names :
  List.filter (fun n => bool_decide (is_Some (Spec.resolve dbmgr n))) names = []
  ↔ omap (Spec.resolve dbmgr) names = [].
Proof.
  induction names as [|name names IH]; [done|].
  cbn [List.filter omap list_omap].
  destruct (Spec.resolve dbmgr name) as [e|].
  - by rewrite bool_decide_eq_true_2.
  - by rewrite bool_decide_eq_false_2 by (by intros [? ?]).
Qed.

(** The names and the tags of a table are read from the same service
    before and after a listing. *)
Lemma resolve_tagged_AfterListing dbmgr :
  Spec.resolve_tagged (AfterListing dbmgr) = Spec.resolve_tagged dbmgr.
Proof. reflexivity. Qed.

(** What discovery returns when both a pattern and a tag value are
    given. *)
Lemma ExecuteSearch_both_value dbmgr pattern tagValue :
  pattern ≠ "" → tagValue ≠ "" →
  value (search.ExecuteSearch f dbmgr pattern tagValue) =
  if bool_decide (value (search.ExecuteSearch f dbmgr pattern "") = [])
  then
    match Spec.first_failure (ListTablesPages (AfterListing dbmgr)) with
    | Some _ => []
    | None =>
      omap (Spec.resolve_tagged dbmgr tagValue)
        (Spec.names_before_failure (ListTablesPages (AfterListing dbmgr)))
    end
  else
    omap (Spec.resolve_tagged dbmgr tagValue)
      (List.filter (Spec.name_passes (strings.ToLower f) pattern)
         (Spec.names_before_failure (ListTablesPages dbmgr))).
Proof.
  intros Hp Ht. rewrite !ExecuteSearch_value.
  rewrite (decide_True (P := pattern ≠ "" ∧ tagValue ≠ "")) by done.
  rewrite (decide_False (P := pattern ≠ "" ∧ "" ≠ "")) by (intros [_ H]; by apply H).
  rewrite (decide_True (P := pattern ≠ "")) by done.
  rewrite searchTablesByFuzzyName_value, searchTablesByTagValue_value,
    resolve_tagged_AfterListing.
  destruct (Spec.first_failure (ListTablesPages dbmgr)) as [err|].
  { by rewrite bool_decide_eq_true_2. }
  rewrite names_of_resolved. cbv zeta.
  set (passing := List.filter _ (Spec.names_before_failure (ListTablesPages dbmgr))).
  destruct (List.filter _ passing) as [|n l] eqn:Hres.
  - apply resolved_nil in Hres. by rewrite bool_decide_eq_true_2.
  - rewrite bool_decide_eq_false_2.
    + by rewrite <- Hres, omap_resolve_tagged_resolved.
    + intros Hnil%resolved_nil. by rewrite Hnil in Hres.
Qed.
End DiscoveryValue.

(** X7: with both a name pattern and a tag value: when discovery by the
    pattern alone returns something, the result is exactly the tables
    that pass the name filter, resolve and hold the tag value, in listing
    order; when it returns nothing (no name matches, or its listing
    fails), the result is that of discovery by the tag value alone over
    the listing the tag step opens: every table of that listing that
    resolves and holds the tag value, or nothing if that listing fails. *)
Theorem name_and_tag_filter f dbmgr pattern tagValue :
  pattern ≠ "" → tagValue ≠ "" →
  value (search.ExecuteSearch f dbmgr pattern tagValue) =
  if bool_decide (value (search.ExecuteSearch f dbmgr pattern "") = [])
  then
    match Spec.first_failure (ListTablesPages (AfterListing dbmgr)) with
    | Some _ => []
    | None =>
      omap (Spec.resolve_tagged dbmgr tagValue)
        (Spec.names_before_failure (ListTablesPages (AfterListing dbmgr)))
    end
  else
    omap (Spec.resolve_tagged dbmgr tagValue)
      (List.filter (Spec.name_passes (strings.ToLower f) pattern)
         (Spec.names_before_failure (ListTablesPages dbmgr))).
Proof. apply ExecuteSearch_both_value. Qed.

Lemma name_and_tag_filter_witness :
  value (search.ExecuteSearch Sample.noUnicode Sample.shop "order" "prod") =
  omap (Spec.resolve_tagged Sample.shop "prod")
    (List.filter (Spec.name_passes (strings.ToLower Sample.noUnicode) "order")
       (Spec.names_before_failure (ListTablesPages Sample.shop))).
Proof.
  assert (Hp : "order" ≠ "") by discriminate.
  assert (Ht : "prod" ≠ "") by discriminate.
  exact (name_and_tag_filter Sample.noUnicode Sample.shop "order" "prod" Hp Ht).
Defined.

(** X8: whatever the pattern, the tag value and the answers of the
    service, every entry discovery returns is the entry of a table listed
    during the run, as the service describes it, and, when a tag value is
    given, of a table whose tags hold that value.  The table is one of
    the listing the run opens first, unless both filters are given and
    discovery by the pattern alone returns nothing: it is then one of the
    listing the tag step opens. *)
Theorem results_listed_and_tagged f dbmgr pattern tagValue e :
  e ∈ value (search.ExecuteSearch f dbmgr pattern tagValue) →
  let listing :=
    if bool_decide (pattern ≠ "" ∧ tagValue ≠ "" ∧
                    value (search.ExecuteSearch f dbmgr pattern "") = [])
    then ListTablesPages (AfterListing dbmgr)
    else ListTablesPages dbmgr in
  ∃ name,
    name ∈ Spec.names_before_failure listing ∧
    Spec.resolve dbmgr name = Some e ∧
    (tagValue ≠ "" → Spec.resolve_tagged dbmgr tagValue name = Some e).
Proof.
  assert (Htagged : ∀ names listing : list string,
    (∀ n, n ∈ names → n ∈ listing) →
    e ∈ omap (Spec.resolve_tagged dbmgr tagValue) names →
    ∃ name, name ∈ listing ∧
      Spec.resolve dbmgr name = Some e ∧
      (tagValue ≠ "" → Spec.resolve_tagged dbmgr tagValue name = Some e)).
  { intros names listing Hsub (name & Hin & Hres)%list_elem_of_omap.
    exists name. split; [by apply Hsub|]. split; [|done].
    by eapply resolve_tagged_resolve. }
  assert (Hfilter : ∀ (P : string → bool) (names : list string) n,
            n ∈ List.filter P names → n ∈ names).
  { intros P names n Hin. apply list_elem_of_In in Hin.
    apply List.filter_In in Hin as [Hin _]. by apply list_elem_of_In. }
  cbv zeta.
  destruct (decide (pattern ≠ "" ∧ tagValue ≠ "")) as [[Hp Ht]|Hnot].
  - rewrite (ExecuteSearch_both_value f dbmgr pattern tagValue Hp Ht).
    destruct (bool_decide_reflect
                (value (search.ExecuteSearch f dbmgr pattern "") = [])) as [Hnil|Hne].
    + rewrite bool_decide_eq_true_2 by done.
      destruct (Spec.first_failure (ListTablesPages (AfterListing dbmgr)));
        [by intros ?%elem_of_nil|].
      by apply Htagged.
    + rewrite bool_decide_eq_false_2 by tauto.
      apply Htagged. eauto.
  - rewrite bool_decide_eq_false_2 by tauto.
    rewrite ExecuteSearch_value.
    rewrite (decide_False (P := pattern ≠ "" ∧ tagValue ≠ "")) by done.
    repeat case_decide.
    + rewrite searchTablesByFuzzyName_value.
      destruct (Spec.first_failure (ListTablesPages dbmgr)); [by intros ?%elem_of_nil|].
      intros (name & Hin & Hres)%list_elem_of_omap.
      exists name. split; [eauto|]. split; [done|]. tauto.
    + rewrite searchTablesByTagValue_value.
      destruct (Spec.first_failure (ListTablesPages dbmgr)); [by intros ?%elem_of_nil|].
      by apply Htagged.
    + by intros ?%elem_of_nil.
Qed.

Lemma results_listed_and_tagged_witness :
  ∃ name,
    name ∈ Spec.names_before_failure (ListTablesPages (AfterListing Sample.shop)) ∧
    Spec.resolve Sample.shop name = Some (search.table_entry "orders" "arn:orders") ∧
    ("prod" ≠ "" →
     Spec.resolve_tagged Sample.shop "prod" name
     = Some (search.table_entry "orders" "arn:orders")).
Proof.
  assert (Hin : search.table_entry "orders" "arn:orders"
                ∈ value (search.ExecuteSearch Sample.noUnicode Sample.shop
                           "zzzzzzzz" "prod"))
    by (vm_compute; by left).
  pose proof (results_listed_and_tagged Sample.noUnicode Sample.shop
                "zzzzzzzz" "prod" _ Hin) as H.
  cbv zeta in H. rewrite bool_decide_eq_true_2 in H; [exact H|].
  split; [discriminate|]. split; [discriminate|]. vm_compute. reflexivity.
Defined.

(** ** The listing, page by page *)

Lemma GetTableList_loop_page_calls pages acc :
  Notions.page_calls (trace (client.GetTableList_loop pages acc))
  = Notions.pages_requested pages.
Proof.
  revert acc. induction pages as [|[err|names] pages IH]; intros acc; [done..|].
  cbn [client.GetTableList_loop Notions.pages_requested]. run_simpl.
  unfold Notions.page_calls in *. cbn. by rewrite IH.
Qed.

(** X9: [GetTableList] returns the names of the pages in order up to the
    first failing page, together with that page's failure (or no failure
    when every page succeeds); it requests each of these pages once and
    no page after a failing one, and makes no other call. *)
Theorem GetTableList_pages dbmgr :
  let run := client.GetTableList dbmgr in
  value run = (Spec.names_before_failure (ListTablesPages dbmgr),
               Spec.first_failure (ListTablesPages dbmgr)) ∧
  Notions.page_calls (trace run) = Notions.pages_requested (ListTablesPages dbmgr) ∧
  Spec.per_table_calls (trace run) = [].
Proof.
  split; [apply GetTableList_value|]. split.
  - apply GetTableList_loop_page_calls.
  - apply GetTableList_per_table_calls.
Qed.

(** ** Units as text and as numbers *)

Lemma of_uint_acc_ge d acc : (acc ≤ Pos.of_uint_acc d acc)%positive.
Proof.
  revert acc. induction d; intros acc; cbn [Pos.of_uint_acc]; [lia|..];
    (etrans; [|apply IHd]); lia.
Qed.

(** One turn of the digit loop when nothing overflows. *)
Lemma ParseUint_loop_step c k s n :
  strconv.digit c = Some k → 0 ≤ k ≤ 9 → 0 ≤ n →
  10 * n + k ≤ strconv.maxUint64 →
  strconv.ParseUint_loop (String c s) n = strconv.ParseUint_loop s (10 * n + k).
Proof.
  intros Hc Hk Hn Hle. cbn [strconv.ParseUint_loop]. rewrite Hc.
  unfold strconv.maxUint64 in *.
  change ((2 ^ 64 - 1) / 10 + 1) with 1844674407370955162.
  change (2 ^ 64) with 18446744073709551616 in *.
  destruct (Z.geb_spec n 1844674407370955162) as [Hge|_]; [lia|].
  rewrite Z.mod_small by lia.
  destruct (Z.ltb_spec (n * 10 + k) (n * 10)); [lia|].
  destruct (Z.gtb_spec (n * 10 + k) (18446744073709551616 - 1)); [lia|].
  cbn [orb]. f_equal. lia.
Qed.

(** The digit loop reads the digits of a decimal numeral back, as long as
    the value fits 64 bits. *)
Lemma ParseUint_loop_acc d acc :
  Zpos (Pos.of_uint_acc d acc) ≤ strconv.maxUint64 →
  strconv.ParseUint_loop (DecimalString.NilEmpty.string_of_uint d) (Zpos acc)
  = (Zpos (Pos.of_uint_acc d acc), None).
Proof.
  revert acc.
  induction d; intros acc Hle; [done|..];
    cbn [DecimalString.NilEmpty.string_of_uint Pos.of_uint_acc] in *;
    match type of Hle with
    | Zpos (Pos.of_uint_acc _ ?a) ≤ _ =>
      pose proof (of_uint_acc_ge d a) as Hge; rewrite <- (IHd a Hle)
    end;
    (erewrite ParseUint_loop_step; [|vm_compute; reflexivity|lia|lia|lia]);
    f_equal; lia.
Qed.

Lemma ParseUint_loop_numeral d :
  Z.of_N (Pos.of_uint d) ≤ strconv.maxUint64 →
  strconv.ParseUint_loop (DecimalString.NilEmpty.string_of_uint d) 0
  = (Z.of_N (Pos.of_uint d), None).
Proof.
  induction d; intros Hle; [done|..];
    cbn [DecimalString.NilEmpty.string_of_uint Pos.of_uint] in *;
    (erewrite ParseUint_loop_step; [|vm_compute; reflexivity|lia|lia|..]);
    cbn [Z.of_N] in *;
    try (apply IHd; lia);
    try (apply ParseUint_loop_acc; done);
    try (pose proof (of_uint_acc_ge d 1); pose proof (of_uint_acc_ge d 2);
         pose proof (of_uint_acc_ge d 3); pose proof (of_uint_acc_ge d 4);
         pose proof (of_uint_acc_ge d 5); pose proof (of_uint_acc_ge d 6);
         pose proof (of_uint_acc_ge d 7); pose proof (of_uint_acc_ge d 8);
         pose proof (of_uint_acc_ge d 9); unfold strconv.maxUint64 in *; lia).
Qed.

Lemma string_of_uint_first d :
  d ≠ Decimal.Nil →
  ∃ c s, DecimalString.NilEmpty.string_of_uint d = String c s ∧
         c ≠ "+"%char ∧ c ≠ "-"%char.
Proof. destruct d; [done|..]; intros _; eexists _, _; repeat split; done. Qed.

(** [strconv.ParseInt] reads back what [%d] printed, for every 64-bit
    integer. *)
Lemma ParseInt_Sprintf_d n :
  Notions.int64 n → strconv.ParseInt (fmt.Sprintf_d n) = (n, None).
Proof.
  unfold Notions.int64, fmt.Sprintf_d. intros Hn.
  destruct n as [|p|p]; [done|..]; cbn [Z.to_int DecimalString.NilZero.string_of_int].
  - pose proof (DecimalPos.Unsigned.to_uint_nonnil p) as Hnil.
    pose proof (DecimalPos.Unsigned.of_to p) as Hof.
    pose proof (ParseUint_loop_numeral (Pos.to_uint p)) as Hloop.
    rewrite Hof in Hloop. cbn [Z.of_N] in Hloop.
    destruct (string_of_uint_first _ Hnil) as (c & s & Hs & Hplus & Hminus).
    assert (DecimalString.NilZero.string_of_uint (Pos.to_uint p) = String c s) as ->.
    { rewrite <- Hs. by destruct (Pos.to_uint p). }
    rewrite Hs in Hloop. unfold strconv.ParseInt.
    rewrite !decide_False by done. unfold strconv.ParseUint.
    rewrite Hloop by (unfold strconv.maxUint64; lia).
    destruct (Z.geb_spec (Z.pos p) (2 ^ 63)); [lia|]. done.
  - pose proof (DecimalPos.Unsigned.to_uint_nonnil p) as Hnil.
    pose proof (DecimalPos.Unsigned.of_to p) as Hof.
    pose proof (ParseUint_loop_numeral (Pos.to_uint p)) as Hloop.
    rewrite Hof in Hloop. cbn [Z.of_N] in Hloop.
    destruct (string_of_uint_first _ Hnil) as (c & s & Hs & Hplus & Hminus).
    assert (DecimalString.NilZero.string_of_uint (Pos.to_uint p) = String c s) as ->.
    { rewrite <- Hs. by destruct (Pos.to_uint p). }
    rewrite Hs in Hloop. unfold strconv.ParseInt.
    rewrite decide_False by done. rewrite decide_True by done.
    unfold strconv.ParseUint.
    rewrite Hloop by (unfold strconv.maxUint64; lia).
    cbn [negb andb]. destruct (Z.gtb_spec (Z.pos p) (2 ^ 63)); [lia|]. done.
Qed.

(** ** The update, in every case *)

Lemma UpdateProvisionedCapacity_shape dbmgr sw tableName rcuStr wcuStr :
  let run := client.UpdateProvisionedCapacity dbmgr sw tableName rcuStr wcuStr in
  Spec.describe_calls (trace run) = [] ∧
  ∃ input, mutating_calls (trace run) = [input] ∧
    TableName input = tableName ∧
    BillingMode input = (if sw then BillingModeProvisioned else "") ∧
    value run = UpdateTable dbmgr input.
Proof.
  unfold client.UpdateProvisionedCapacity. cbv zeta.
  match goal with |- context [emit (EvUpdateTable ?i)] => set (input := i) end.
  split.
  - run_simpl. by destruct (UpdateTable dbmgr input).
  - exists input. repeat split.
    + run_simpl. by destruct (UpdateTable dbmgr input).
    + unfold input. by destruct sw.
    + unfold input. by destruct sw.
    + run_step. by destruct (UpdateTable dbmgr input).
Qed.

Lemma SwitchToOnDemandCapacity_spec dbmgr tableName :
  let run := client.SwitchToOnDemandCapacity dbmgr tableName in
  Spec.describe_calls (trace run) = [] ∧
  mutating_calls (trace run) = [Notions.set_on_demand tableName] ∧
  value run = UpdateTable dbmgr (Notions.set_on_demand tableName).
Proof.
  unfold client.SwitchToOnDemandCapacity. cbv zeta.
  fold (Notions.set_on_demand tableName).
  repeat split; run_step; by destruct (UpdateTable dbmgr _).
Qed.

(** X10: when the table cannot be described, the update fails with
    "Failed to update the table!" without any mutating call, whatever was
    asked for. *)
Theorem describe_failure_is_fatal dbmgr tableName paramRcu paramWcu
    switchToOnDemand switchToProvisioned err :
  DescribeTable dbmgr tableName = inl err →
  let run := update.ExecuteUpdate dbmgr tableName paramRcu paramWcu
               switchToOnDemand switchToProvisioned in
  value run = Some "Failed to update the table!" ∧
  mutating_calls (trace run) = [] ∧
  Spec.describe_calls (trace run) = [tableName].
Proof.
  intros Hd. unfold update.ExecuteUpdate, client.GetCurrentBillingMode.
  rewrite Hd. done.
Qed.

Lemma describe_failure_is_fatal_witness :
  let run := update.ExecuteUpdate Sample.shop "sessions" "10" "" false true in
  value run = Some "Failed to update the table!" ∧
  mutating_calls (trace run) = [] ∧
  Spec.describe_calls (trace run) = ["sessions"].
Proof.
  apply (describe_failure_is_fatal Sample.shop "sessions" "10" "" false true
           "ResourceNotFoundException").
  reflexivity.
Defined.

(** X11: whatever is asked for and whatever the service answers, an
    update describes the table exactly once and then either issues no
    mutating call, returning success or "Failed to update the table!", or
    issues exactly one, on the table named, and returns what that call
    returned. *)
Theorem update_at_most_one_call dbmgr tableName paramRcu paramWcu
    switchToOnDemand switchToProvisioned :
  let run := update.ExecuteUpdate dbmgr tableName paramRcu paramWcu
               switchToOnDemand switchToProvisioned in
  Spec.describe_calls (trace run) = [tableName] ∧
  ((mutating_calls (trace run) = [] ∧
    (value run = None ∨ value run = Some "Failed to update the table!")) ∨
   (∃ input, mutating_calls (trace run) = [input] ∧
      TableName input = tableName ∧
      value run = UpdateTable dbmgr input)).
Proof.
  cbv zeta.
  assert (Hupd : ∀ sw r w,
    let run := client.UpdateProvisionedCapacity dbmgr sw tableName r w in
    Spec.describe_calls ([EvDescribeTable tableName] ++ trace run) = [tableName] ∧
    ((mutating_calls ([EvDescribeTable tableName] ++ trace run) = [] ∧
      (value run = None ∨ value run = Some "Failed to update the table!")) ∨
     ∃ input, mutating_calls ([EvDescribeTable tableName] ++ trace run) = [input] ∧
       TableName input = tableName ∧ value run = UpdateTable dbmgr input)).
  { intros sw r w.
    destruct (UpdateProvisionedCapacity_shape dbmgr sw tableName r w)
      as (Hd & input & Hm & Hn & _ & Hv).
    cbv zeta. rewrite describe_calls_app, mutating_calls_app, Hd, Hm.
    split; [done|]. right. eauto. }
  destruct (DescribeTable dbmgr tableName) as [err|table] eqn:Hdesc.
  { unfold update.ExecuteUpdate, client.GetCurrentBillingMode. rewrite Hdesc.
    split; [done|]. left. split; [done|]. by right. }
  unfold update.ExecuteUpdate.
  rewrite (GetCurrentBillingMode_described _ _ _ Hdesc). cbn [mbind M_bind].
  destruct switchToOnDemand.
  - destruct (decide (Spec.current_mode table ≠ "PAY_PER_REQUEST")).
    + destruct (SwitchToOnDemandCapacity_spec dbmgr tableName) as (Hd & Hm & Hv).
      destruct (client.SwitchToOnDemandCapacity dbmgr tableName) as [t v].
      cbn [trace value fst snd] in *.
      rewrite describe_calls_app, mutating_calls_app, Hd, Hm. split; [done|].
      right. eexists. by repeat split.
    + split; [done|]. left. split; [done|]. by left.
  - destruct (bool_decide (Spec.current_mode table ≠ "PROVISIONED")
              && negb switchToProvisioned).
    { split; [done|]. left. split; [done|]. by right. }
    destruct (decide (paramRcu = "" ∧ paramWcu = "")).
    { specialize (Hupd switchToProvisioned "" ""). cbv zeta in Hupd.
      by destruct (client.UpdateProvisionedCapacity _ _ _ _ _) as [t v]. }
    match goal with |- context [decide (?r ≠ _ ∨ ?w ≠ _)] =>
      specialize (Hupd switchToProvisioned r w) end.
    cbv zeta in Hupd. destruct (decide (_ ∨ _)).
    + by destruct (client.UpdateProvisionedCapacity _ _ _ _ _) as [t v].
    + split; [done|]. left. split; [done|]. by left.
Qed.

(** X12: asking for on-demand mode when the table is not reported as
    PAY_PER_REQUEST issues exactly one mutating call, which sets the
    billing mode to PAY_PER_REQUEST and carries no throughput, and returns
    what that call returned; the units and the switch-to-provisioned flag
    are ignored. *)
Theorem on_demand_switch dbmgr tableName paramRcu paramWcu switchToProvisioned
    table :
  DescribeTable dbmgr tableName = inr table →
  Spec.current_mode table ≠ "PAY_PER_REQUEST" →
  let run := update.ExecuteUpdate dbmgr tableName paramRcu paramWcu true
               switchToProvisioned in
  mutating_calls (trace run) = [Notions.set_on_demand tableName] ∧
  value run = UpdateTable dbmgr (Notions.set_on_demand tableName).
Proof.
  intros Hd Hmode. unfold update.ExecuteUpdate.
  rewrite (GetCurrentBillingMode_described _ _ _ Hd). cbn [mbind M_bind].
  rewrite decide_True by done.
  destruct (SwitchToOnDemandCapacity_spec dbmgr tableName) as (_ & Hm & Hv).
  destruct (client.SwitchToOnDemandCapacity dbmgr tableName) as [t v].
  cbn [trace value fst snd] in *. by rewrite mutating_calls_app, Hm.
Qed.

Lemma on_demand_switch_witness :
  let run := update.ExecuteUpdate Sample.shop "orders" "10" "" true true in
  mutating_calls (trace run) = [Notions.set_on_demand "orders"] ∧
  value run = UpdateTable Sample.shop (Notions.set_on_demand "orders").
Proof.
  apply (on_demand_switch Sample.shop "orders" "10" "" true
           (Sample.table "arn:orders" (Some "PROVISIONED") 5 5));
    [reflexivity|discriminate].
Defined.

(** X13: a change of units without the switch-to-provisioned flag is
    rejected for every table whose description does not report the mode
    PROVISIONED, in particular for a table whose description carries no
    billing mode summary at all: the update fails and issues no mutating
    call. *)
Theorem units_rejected_unless_reported_provisioned dbmgr tableName paramRcu
    paramWcu table :
  DescribeTable dbmgr tableName = inr table →
  Spec.current_mode table ≠ "PROVISIONED" →
  let run := update.ExecuteUpdate dbmgr tableName paramRcu paramWcu false false in
  value run = Some "Failed to update the table!" ∧
  mutating_calls (trace run) = [].
Proof.
  intros Hd Hmode. unfold update.ExecuteUpdate.
  rewrite (GetCurrentBillingMode_described _ _ _ Hd). cbn [mbind M_bind].
  by rewrite bool_decide_eq_true_2.
Qed.

Lemma units_rejected_unless_reported_provisioned_witness :
  let run := update.ExecuteUpdate Notions.legacy "events" "10" "" false false in
  value run = Some "Failed to update the table!" ∧
  mutating_calls (trace run) = [].
Proof.
  eapply (units_rejected_unless_reported_provisioned Notions.legacy "events"
            "10" ""); [reflexivity|discriminate].
Defined.

(** The request [UpdateProvisionedCapacity] sends for two non-blank unit
    strings. *)
Lemma UpdateProvisionedCapacity_request dbmgr (sw : bool) tableName rcuStr wcuStr :
  rcuStr ≠ "" → wcuStr ≠ "" →
  let input :=
    if sw
    then Spec.set_provisioned tableName (fst (strconv.ParseInt rcuStr))
           (fst (strconv.ParseInt wcuStr))
    else Notions.set_units tableName (fst (strconv.ParseInt rcuStr))
           (fst (strconv.ParseInt wcuStr)) in
  let run := client.UpdateProvisionedCapacity dbmgr sw tableName rcuStr wcuStr in
  mutating_calls (trace run) = [input] ∧ value run = UpdateTable dbmgr input.
Proof.
  intros Hr Hw. destruct sw; [by apply UpdateProvisionedCapacity_units|].
  unfold client.UpdateProvisionedCapacity.
  rewrite (decide_True (P := rcuStr ≠ "")), (decide_True (P := wcuStr ≠ "")) by done.
  fold (Notions.set_units tableName (fst (strconv.ParseInt rcuStr))
          (fst (strconv.ParseInt wcuStr))).
  cbn. destruct (UpdateTable dbmgr _); done.
Qed.

(** The unit branch of [ExecuteUpdate], for either value of the
    switch-to-provisioned flag. *)
Lemma ExecuteUpdate_units dbmgr tableName paramRcu paramWcu (sw : bool) table :
  DescribeTable dbmgr tableName = inr table →
  paramRcu ≠ "" ∨ paramWcu ≠ "" →
  sw = true ∨ Spec.current_mode table = "PROVISIONED" →
  let rcu := Spec.resolve_unit paramRcu 5 in
  let wcu := Spec.resolve_unit paramWcu 5 in
  let run := update.ExecuteUpdate dbmgr tableName paramRcu paramWcu false sw in
  let input :=
    if sw
    then Spec.set_provisioned tableName (fst (strconv.ParseInt rcu))
           (fst (strconv.ParseInt wcu))
    else Notions.set_units tableName (fst (strconv.ParseInt rcu))
           (fst (strconv.ParseInt wcu)) in
  if decide ((rcu, wcu) = (fmt.Sprintf_d (fst (Spec.current_units table)),
                           fmt.Sprintf_d (snd (Spec.current_units table)))
             ∧ Spec.current_mode table = "PROVISIONED")
  then value run = None ∧ mutating_calls (trace run) = []
  else mutating_calls (trace run) = [input] ∧ value run = UpdateTable dbmgr input.
Proof.
  intros Hd Hunits Hsw rcu wcu.
  pose proof (resolve_unit_nonempty paramRcu 5) as Hrcu.
  pose proof (resolve_unit_nonempty paramWcu 5) as Hwcu.
  fold rcu in Hrcu. fold wcu in Hwcu.
  destruct (UpdateProvisionedCapacity_request dbmgr sw tableName rcu wcu Hrcu Hwcu)
    as [Hcalls Hval].
  unfold update.ExecuteUpdate.
  rewrite (GetCurrentBillingMode_described _ _ _ Hd).
  cbn [mbind M_bind].
  assert (bool_decide (Spec.current_mode table ≠ "PROVISIONED") && negb sw = false)
    as ->.
  { destruct Hsw as [->| ->]; [apply andb_false_r|done]. }
  rewrite (decide_False (P := paramRcu = "" ∧ paramWcu = "")) by tauto.
  change (fmt.Sprintf_d client.DefaultRcu) with (fmt.Sprintf_d 5).
  change (fmt.Sprintf_d client.DefaultWcu) with (fmt.Sprintf_d 5).
  fold (Spec.resolve_unit paramRcu 5). fold (Spec.resolve_unit paramWcu 5).
  fold rcu. fold wcu.
  destruct (decide (Spec.current_mode table = "PROVISIONED")) as [Hmode|Hmode].
  - destruct (decide (rcu ≠ fmt.Sprintf_d (fst (Spec.current_units table))
                      ∨ wcu ≠ fmt.Sprintf_d (snd (Spec.current_units table))))
      as [Hne|Heq].
    + rewrite decide_False by (intros [[= ? ?] _]; tauto).
      destruct (client.UpdateProvisionedCapacity dbmgr sw tableName rcu wcu)
        as [t v]. simpl in *. by subst.
    + rewrite decide_True; [done|]. split; [|done].
      f_equal; apply dec_stable; tauto.
  - rewrite (decide_True (P := rcu ≠ "" ∨ wcu ≠ "")) by (by left).
    rewrite decide_False by tauto.
    destruct (client.UpdateProvisionedCapacity dbmgr sw tableName rcu wcu)
      as [t v]. simpl in *. by subst.
Qed.

(** X14: on a table reported as PROVISIONED, a change of units without
    the switch-to-provisioned flag resolves a blank unit to 5 and is a
    no-op exactly when the resolved unit strings are, as text, the decimal
    renderings of the current units; otherwise exactly one mutating call
    is issued, with the parsed units and with the billing mode left
    unset. *)
Theorem units_change_on_provisioned dbmgr tableName paramRcu paramWcu table :
  DescribeTable dbmgr tableName = inr table →
  Spec.current_mode table = "PROVISIONED" →
  paramRcu ≠ "" ∨ paramWcu ≠ "" →
  let rcu := Spec.resolve_unit paramRcu 5 in
  let wcu := Spec.resolve_unit paramWcu 5 in
  let run := update.ExecuteUpdate dbmgr tableName paramRcu paramWcu false false in
  let input := Notions.set_units tableName (fst (strconv.ParseInt rcu))
                 (fst (strconv.ParseInt wcu)) in
  if decide ((rcu, wcu) = (fmt.Sprintf_d (fst (Spec.current_units table)),
                           fmt.Sprintf_d (snd (Spec.current_units table))))
  then value run = None ∧ mutating_calls (trace run) = []
  else mutating_calls (trace run) = [input] ∧ value run = UpdateTable dbmgr input.
Proof.
  intros Hd Hmode Hunits.
  pose proof (ExecuteUpdate_units dbmgr tableName paramRcu paramWcu false table
                Hd Hunits (or_intror Hmode)) as H.
  cbv zeta in *. repeat case_decide; try done; tauto.
Qed.

Lemma units_change_on_provisioned_witness :
  let run := update.ExecuteUpdate Sample.shop "orders" "" "20" false false in
  mutating_calls (trace run) = [Notions.set_units "orders" 5 20] ∧
  value run = None.
Proof.
  assert (Hunits : "" ≠ "" ∨ "20" ≠ "") by (right; discriminate).
  exact (units_change_on_provisioned Sample.shop "orders" "" "20"
           (Sample.table "arn:orders" (Some "PROVISIONED") 5 5)
           eq_refl eq_refl Hunits).
Defined.

(** X15: for units written as [%d] prints them, the no-op rule is a rule
    on numbers.  Asked to switch to provisioned mode with the 64-bit
    integers [r] and [w] in that form, the update is a no-op exactly when
    the table is reported as PROVISIONED with the units [(r, w)];
    otherwise it issues one mutating call, which sets provisioned mode
    with exactly [r] and [w]. *)
Theorem provisioned_with_canonical_units dbmgr tableName r w table :
  DescribeTable dbmgr tableName = inr table →
  Notions.int64 r → Notions.int64 w →
  let run := update.ExecuteUpdate dbmgr tableName (fmt.Sprintf_d r)
               (fmt.Sprintf_d w) false true in
  if decide ((r, w) = Spec.current_units table
             ∧ Spec.current_mode table = "PROVISIONED")
  then value run = None ∧ mutating_calls (trace run) = []
  else mutating_calls (trace run) = [Spec.set_provisioned tableName r w] ∧
       value run = UpdateTable dbmgr (Spec.set_provisioned tableName r w).
Proof.
  intros Hd Hr Hw.
  assert (Hunits : fmt.Sprintf_d r ≠ "" ∨ fmt.Sprintf_d w ≠ "")
    by (left; apply Sprintf_d_nonempty).
  pose proof (ExecuteUpdate_units dbmgr tableName (fmt.Sprintf_d r)
                (fmt.Sprintf_d w) true table Hd Hunits (or_introl eq_refl)) as H.
  cbv zeta in H. unfold Spec.resolve_unit in H.
  rewrite (decide_False (P := fmt.Sprintf_d r = "")),
    (decide_False (P := fmt.Sprintf_d w = "")) in H by apply Sprintf_d_nonempty.
  rewrite !ParseInt_Sprintf_d in H by done. cbn [fst] in H.
  pose proof (canonical_units_equal r w table) as Hcan.
  cbv zeta. repeat case_decide; try done; tauto.
Qed.

Lemma provisioned_with_canonical_units_witness :
  let run := update.ExecuteUpdate Sample.shop "orders" "5" "5" false true in
  value run = None ∧ mutating_calls (trace run) = [].
Proof.
  assert (H5 : Notions.int64 5) by (unfold Notions.int64; lia).
  exact (provisioned_with_canonical_units Sample.shop "orders" 5 5
           (Sample.table "arn:orders" (Some "PROVISIONED") 5 5) eq_refl H5 H5).
Defined.

(** X16: what [GetCurrentBillingMode] reports for a table the service
    describes with 64-bit units: the mode of the billing mode summary (the
    empty string without one) and no error; both unit strings are empty
    unless that mode is PROVISIONED, and then they are decimal numerals
    that [strconv.ParseInt] reads back, without error, as the table's
    units. *)
Theorem GetCurrentBillingMode_units dbmgr tableName table :
  DescribeTable dbmgr tableName = inr table →
  Notions.int64 (fst (Spec.current_units table)) →
  Notions.int64 (snd (Spec.current_units table)) →
  ∃ rcu wcu,
    value (client.GetCurrentBillingMode dbmgr tableName)
      = (Spec.current_mode table, rcu, wcu, None) ∧
    if decide (Spec.current_mode table = "PROVISIONED")
    then strconv.ParseInt rcu = (fst (Spec.current_units table), None) ∧
         strconv.ParseInt wcu = (snd (Spec.current_units table), None)
    else rcu = "" ∧ wcu = "".
Proof.
  intros Hd Hr Hw. rewrite (GetCurrentBillingMode_described _ _ _ Hd).
  eexists _, _. split; [done|].
  destruct (decide (Spec.current_mode table = "PROVISIONED")); [|done].
  by rewrite !ParseInt_Sprintf_d.
Qed.

Lemma GetCurrentBillingMode_units_witness :
  ∃ rcu wcu,
    value (client.GetCurrentBillingMode Sample.shop "orders")
      = ("PROVISIONED", rcu, wcu, None) ∧
    strconv.ParseInt rcu = (5, None) ∧ strconv.ParseInt wcu = (5, None).
Proof.
  assert (H5 : Notions.int64 5) by (unfold Notions.int64; lia).
  exact (GetCurrentBillingMode_units Sample.shop "orders"
           (Sample.table "arn:orders" (Some "PROVISIONED") 5 5) eq_refl H5 H5).
Defined.

(** ** The log filter *)

Lemma remove_byte_absent c s :
  GoString.Contains (logging.remove_byte c s) (String c "") = false.
Proof.
  induction s as [|x s IH]; [done|].
  cbn [logging.remove_byte]. destruct (decide (x = c)) as [->|Hne]; [done|].
  cbn [GoString.Contains GoString.HasPrefix].
  rewrite decide_False by congruence. by rewrite IH.
Qed.

Lemma remove_byte_id c s :
  GoString.Contains s (String c "") = false → logging.remove_byte c s = s.
Proof.
  induction s as [|x s IH]; [done|].
  cbn [GoString.Contains GoString.HasPrefix logging.remove_byte].
  destruct (decide (c = x)) as [->|Hne].
  - by destruct s.
  - rewrite decide_False by congruence. cbn [orb]. intros H. by rewrite IH.
Qed.

Lemma remove_byte_other c c' s :
  GoString.Contains s (String c "") = false →
  GoString.Contains (logging.remove_byte c' s) (String c "") = false.
Proof.
  induction s as [|x s IH]; [done|].
  cbn [GoString.Contains GoString.HasPrefix logging.remove_byte].
  destruct (decide (c = x)) as [->|Hne]; [by destruct s|].
  cbn [orb]. intros H. destruct (decide (x = c')); [by apply IH|].
  cbn [GoString.Contains GoString.HasPrefix].
  rewrite decide_False by done. by apply IH.
Qed.

(** X17: a sanitized log message holds neither a line feed nor a carriage
    return, whatever the message; a message without them is left as it
    is, so sanitizing twice changes nothing more. *)
Theorem sanitize_no_line_breaks msg :
  GoString.Contains (logging.sanitize msg) (String "010"%char "") = false ∧
  GoString.Contains (logging.sanitize msg) (String "013"%char "") = false ∧
  (GoString.Contains msg (String "010"%char "") = false →
   GoString.Contains msg (String "013"%char "") = false →
   logging.sanitize msg = msg) ∧
  logging.sanitize (logging.sanitize msg) = logging.sanitize msg.
Proof.
  unfold logging.sanitize. cbv zeta.
  assert (H1 : GoString.Contains
                 (logging.remove_byte "013" (logging.remove_byte "010" msg))
                 (String "010"%char "") = false)
    by apply remove_byte_other, remove_byte_absent.
  assert (H2 : GoString.Contains
                 (logging.remove_byte "013" (logging.remove_byte "010" msg))
                 (String "013"%char "") = false)
    by apply remove_byte_absent.
  repeat split; try done.
  - intros Hlf Hcr. by rewrite (remove_byte_id _ _ Hlf), (remove_byte_id _ _ Hcr).
  - by rewrite (remove_byte_id _ _ H1), (remove_byte_id _ _ H2).
Qed.

(** ** The command line *)

Lemma checkCommand_None fl :
  Main.checkCommand fl = None ↔
  (Main.updateTable fl = "" ∧
   (Main.searchTerm fl ≠ "" ∨ Main.tagValue fl ≠ "") ∧
   Main.rcuValueStr fl = "" ∧ Main.wcuValueStr fl = "" ∧
   Main.provisioned fl = false ∧ Main.onDemand fl = false)
  ∨
  (Main.updateTable fl ≠ "" ∧
   Main.searchTerm fl = "" ∧ Main.tagValue fl = "" ∧
   (Main.rcuValueStr fl ≠ "" ∨ Main.wcuValueStr fl ≠ "" ∨
    Main.provisioned fl = true ∨ Main.onDemand fl = true) ∧
   (Main.onDemand fl = true →
    Main.rcuValueStr fl = "" ∧ Main.wcuValueStr fl = "") ∧
   (Main.rcuValueStr fl ≠ "" → snd (strconv.ParseInt (Main.rcuValueStr fl)) = None) ∧
   (Main.wcuValueStr fl ≠ "" → snd (strconv.ParseInt (Main.wcuValueStr fl)) = None)).
Proof.
  unfold Main.checkCommand, Main.isValidSearchCommand, Main.isValidUpdateCommand.
  destruct fl as [st tv ut rcu wcu prov od]. cbn [Main.searchTerm Main.tagValue
    Main.updateTable Main.rcuValueStr Main.wcuValueStr Main.provisioned Main.onDemand].
  destruct (decide (st = "")), (decide (tv = "")), (decide (ut = "")),
    (decide (rcu = "")), (decide (wcu = "")), prov, od;
    repeat (rewrite ?bool_decide_eq_true_2, ?bool_decide_eq_false_2 by (done || tauto));
    cbn [negb andb orb];
    repeat (rewrite ?decide_True, ?decide_False by (done || tauto));
    try (split; [discriminate|intuition congruence]);
    destruct (snd (strconv.ParseInt rcu)) as [er|],
             (snd (strconv.ParseInt wcu)) as [ew|];
    intuition congruence.
Qed.

(** X18: the commands [checkCommand] accepts.  A command is accepted
    exactly when it is a search (no table to update, a search term or a
    tag value, and none of the capacity flags) or an update (a table to
    update, no search term and no tag value, at least one of the four
    capacity flags, no unit together with on-demand, and every unit given
    readable by [strconv.ParseInt]).  On-demand and provisioned together,
    and negative units, are accepted. *)
Theorem checkCommand_accepts fl :
  Main.checkCommand fl = None ↔
  (Main.updateTable fl = "" ∧
   (Main.searchTerm fl ≠ "" ∨ Main.tagValue fl ≠ "") ∧
   Main.rcuValueStr fl = "" ∧ Main.wcuValueStr fl = "" ∧
   Main.provisioned fl = false ∧ Main.onDemand fl = false)
  ∨
  (Main.updateTable fl ≠ "" ∧
   Main.searchTerm fl = "" ∧ Main.tagValue fl = "" ∧
   (Main.rcuValueStr fl ≠ "" ∨ Main.wcuValueStr fl ≠ "" ∨
    Main.provisioned fl = true ∨ Main.onDemand fl = true) ∧
   (Main.onDemand fl = true →
    Main.rcuValueStr fl = "" ∧ Main.wcuValueStr fl = "") ∧
   (Main.rcuValueStr fl ≠ "" → snd (strconv.ParseInt (Main.rcuValueStr fl)) = None) ∧
   (Main.wcuValueStr fl ≠ "" → snd (strconv.ParseInt (Main.wcuValueStr fl)) = None)).
Proof. apply checkCommand_None. Qed.

Lemma checkCommand_witness_flags :
  Main.checkCommand
    {| Main.searchTerm := ""; Main.tagValue := ""; Main.updateTable := "orders";
       Main.rcuValueStr := "-5"; Main.wcuValueStr := "";
       Main.provisioned := true; Main.onDemand := false |} = None ∧
  Main.checkCommand
    {| Main.searchTerm := ""; Main.tagValue := ""; Main.updateTable := "orders";
       Main.rcuValueStr := ""; Main.wcuValueStr := "";
       Main.provisioned := true; Main.onDemand := true |} = None ∧
  Main.checkCommand
    {| Main.searchTerm := "ord"; Main.tagValue := ""; Main.updateTable := "orders";
       Main.rcuValueStr := ""; Main.wcuValueStr := "";
       Main.provisioned := false; Main.onDemand := false |}
  = Some Main.InvalidCommand.
Proof. repeat split; vm_compute; reflexivity. Qed.

(** X19: the third check of [checkCommand], an update together with a
    search term or a tag value, can never fire: every such command is
    already rejected by the first check, as an invalid command. *)
Theorem checkCommand_third_check_dead fl :
  Main.checkCommand fl ≠ Some Main.UpdateWithSearch ∧
  (Main.updateTable fl ≠ "" →
   Main.searchTerm fl ≠ "" ∨ Main.tagValue fl ≠ "" →
   Main.checkCommand fl = Some Main.InvalidCommand).
Proof.
  unfold Main.checkCommand, Main.isValidSearchCommand, Main.isValidUpdateCommand.
  destruct fl as [st tv ut rcu wcu prov od]. cbn [Main.searchTerm Main.tagValue
    Main.updateTable Main.rcuValueStr Main.wcuValueStr Main.provisioned Main.onDemand].
  destruct (decide (st = "")), (decide (tv = "")), (decide (ut = ""));
    repeat (rewrite ?bool_decide_eq_true_2, ?bool_decide_eq_false_2 by (done || tauto));
    cbn [negb andb orb];
    (split; [repeat case_match; congruence|tauto || done]).
Qed.

(** ** From the command line to the service *)

Lemma ExecuteSearch_announced f dbmgr pattern tagValue :
  pattern ≠ "" ∨ tagValue ≠ "" →
  ∃ msg rest,
    trace (search.ExecuteSearch f dbmgr pattern tagValue) = EvLog LvInfo msg :: rest.
Proof.
  intros Hcond. unfold search.ExecuteSearch.
  repeat case_decide; [..|tauto]; run_simpl; eauto.
Qed.

(** X20: a search that [checkCommand] accepts reaches [ExecuteSearch]
    with a search term or a tag value, so the run starts with a "Begin to
    search" record and never takes the invalid-conditions branch; [main]
    adds nothing to the trace but the eight records of [dumpParams],
    issues no mutating call, and exits with status 1. *)
Theorem validated_search f dbmgr fl :
  Main.checkCommand fl = None →
  Main.updateTable fl = "" →
  let run := Main.main f dbmgr fl in
  let task := search.ExecuteSearch f dbmgr (Main.searchTerm fl) (Main.tagValue fl) in
  trace run = trace Main.dumpParams ++ trace task ∧
  (∃ msg rest, trace task = EvLog LvInfo msg :: rest) ∧
  mutating_calls (trace run) = [] ∧
  value run = 1.
Proof.
  intros Hok Hut. cbv zeta.
  assert (Hcond : Main.searchTerm fl ≠ "" ∨ Main.tagValue fl ≠ "").
  { apply checkCommand_None in Hok as [(_ & H & _)|(H & _)]; [done|].
    by rewrite Hut in H. }
  unfold Main.main, Main.run. rewrite Hok.
  rewrite (decide_False (P := Main.updateTable fl ≠ "")) by (intros H; by apply H).
  rewrite (decide_True (P := "search" = "search")) by done.
  assert (Htrace :
    ∀ task : M (list (gmap string string)),
      trace (Main.dumpParams;;
             (err ← (task;; mret (None : option error));
              match err with
              | Some _ => log LvError "Failed to search dynamodb table due to: %v"
              | None => mret ()
              end);; mret 1)
      = trace Main.dumpParams ++ trace task).
  { intros [t v]. cbn. by rewrite !app_nil_r. }
  rewrite Htrace. split; [done|]. split; [by apply ExecuteSearch_announced|].
  split.
  - by rewrite mutating_calls_app, ExecuteSearch_mutating_calls.
  - by destruct (search.ExecuteSearch f dbmgr _ _).
Qed.

Lemma validated_search_witness :
  let fl := {| Main.searchTerm := "order"; Main.tagValue := "prod";
               Main.updateTable := ""; Main.rcuValueStr := "";
               Main.wcuValueStr := ""; Main.provisioned := false;
               Main.onDemand := false |} in
  let run := Main.main Sample.noUnicode Sample.shop fl in
  let task := search.ExecuteSearch Sample.noUnicode Sample.shop "order" "prod" in
  trace run = trace Main.dumpParams ++ trace task ∧
  (∃ msg rest, trace task = EvLog LvInfo msg :: rest) ∧
  mutating_calls (trace run) = [] ∧
  value run = 1.
Proof.
  apply (validated_search Sample.noUnicode Sample.shop
           {| Main.searchTerm := "order"; Main.tagValue := "prod";
              Main.updateTable := ""; Main.rcuValueStr := "";
              Main.wcuValueStr := ""; Main.provisioned := false;
              Main.onDemand := false |}); reflexivity.
Defined.

Lemma ExecuteUpdate_on_demand_calls dbmgr tableName paramRcu paramWcu sw :
  let run := update.ExecuteUpdate dbmgr tableName paramRcu paramWcu true sw in
  mutating_calls (trace run) = [] ∨
  mutating_calls (trace run) = [Notions.set_on_demand tableName].
Proof.
  cbv zeta. destruct (DescribeTable dbmgr tableName) as [err|table] eqn:Hd.
  - left. unfold update.ExecuteUpdate, client.GetCurrentBillingMode.
    by rewrite Hd.
  - unfold update.ExecuteUpdate.
    rewrite (GetCurrentBillingMode_described _ _ _ Hd). cbn [mbind M_bind].
    destruct (decide (Spec.current_mode table ≠ "PAY_PER_REQUEST")); [|by left].
    right. destruct (SwitchToOnDemandCapacity_spec dbmgr tableName) as (_ & Hm & _).
    destruct (client.SwitchToOnDemandCapacity dbmgr tableName) as [t v].
    cbn [trace value fst snd] in *. by rewrite mutating_calls_app, Hm.
Qed.

(** X21: an update that [checkCommand] accepts runs [ExecuteUpdate] on
    the named table with the flags as given; [main] adds nothing to the
    trace but the eight records of [dumpParams], so a failed update is
    not reported by [main] itself, and the exit status is 1 whether the
    update succeeded or not.  When on-demand is asked for, also together
    with provisioned, the only mutating call that can be issued is the
    switch to on-demand. *)
Theorem validated_update f dbmgr fl :
  Main.checkCommand fl = None →
  Main.updateTable fl ≠ "" →
  let run := Main.main f dbmgr fl in
  let task := update.ExecuteUpdate dbmgr (Main.updateTable fl)
                (Main.rcuValueStr fl) (Main.wcuValueStr fl)
                (Main.onDemand fl) (Main.provisioned fl) in
  trace run = trace Main.dumpParams ++ trace task ∧
  value run = 1 ∧
  (Main.onDemand fl = true →
   mutating_calls (trace run) = [] ∨
   mutating_calls (trace run) = [Notions.set_on_demand (Main.updateTable fl)]).
Proof.
  intros Hok Hut. cbv zeta.
  unfold Main.main, Main.run. rewrite Hok.
  rewrite (decide_True (P := Main.updateTable fl ≠ "")) by done.
  rewrite (decide_False (P := "update" = "search")) by done.
  rewrite (decide_True (P := "update" = "update")) by done.
  assert (Htrace :
    ∀ task : M (option error),
      trace (Main.dumpParams;;
             (err ← (task;; mret (None : option error));
              match err with
              | Some _ => log LvError "Failed to update the dynamodb table:%s , due to: %v"
              | None => mret ()
              end);; mret 1)
      = trace Main.dumpParams ++ trace task).
  { intros [t v]. cbn. by rewrite !app_nil_r. }
  rewrite Htrace. split; [done|]. split.
  { by destruct (update.ExecuteUpdate dbmgr _ _ _ _ _). }
  intros Hod. rewrite Hod, mutating_calls_app. cbn [app].
  change (mutating_calls (trace Main.dumpParams)) with (@nil UpdateTableInput).
  cbn [app]. apply ExecuteUpdate_on_demand_calls.
Qed.

Lemma validated_update_witness :
  let fl := {| Main.searchTerm := ""; Main.tagValue := "";
               Main.updateTable := "orders"; Main.rcuValueStr := "";
               Main.wcuValueStr := ""; Main.provisioned := true;
               Main.onDemand := true |} in
  let run := Main.main Sample.noUnicode Sample.shop fl in
  let task := update.ExecuteUpdate Sample.shop "orders" "" "" true true in
  trace run = trace Main.dumpParams ++ trace task ∧
  value run = 1 ∧
  (true = true →
   mutating_calls (trace run) = [] ∨
   mutating_calls (trace run) = [Notions.set_on_demand "orders"]).
Proof.
  apply (validated_update Sample.noUnicode Sample.shop
           {| Main.searchTerm := ""; Main.tagValue := "";
              Main.updateTable := "orders"; Main.rcuValueStr := "";
              Main.wcuValueStr := ""; Main.provisioned := true;
              Main.onDemand := true |}); [reflexivity|discriminate].
Defined.

(** ** Further properties of the name filter *)

(** X22: a name that equals the pattern once both are lower-cased passes
    the name filter, whatever the case of either (strings shorter than
    2^56 bytes): the search is insensitive to case for an exact match. *)
Theorem same_name_up_to_case_passes f pattern name :
  strings.ToLower f pattern = strings.ToLower f name →
  GoString.len (strings.ToLower f name) < 2 ^ 56 →
  Spec.name_passes (strings.ToLower f) pattern name = true.
Proof.
  intros Heq Hlen. unfold Spec.name_passes. rewrite Heq.
  rewrite (proj2 (FuzzyMatchRatio_100_iff _ _ Hlen Hlen) eq_refl).
  by rewrite orb_true_r.
Qed.

Lemma same_name_up_to_case_passes_witness :
  Spec.name_passes (strings.ToLower Sample.noUnicode) "ORDERS" "Orders" = true.
Proof.
  apply (same_name_up_to_case_passes Sample.noUnicode "ORDERS" "Orders");
    vm_compute; reflexivity.
Defined.

(** An ASCII byte decodes to itself. *)
Lemma decode_from_ascii s :
  forallb (fun b => b <? 0x80) s = true → GoString.decode_from 0 s = s.
Proof.
  induction s as [|b s IH]; [done|].
  cbn [forallb]. intros [Hb Hs]%andb_prop.
  cbn [GoString.decode_from GoString.DecodeRune]. rewrite Hb.
  cbn [Nat.sub]. by rewrite IH.
Qed.

(** X23: an ASCII-only string converts to one code point per byte, the
    byte itself, so its length in code points is its length in bytes. *)
Theorem ascii_runes s :
  strings.isASCII s = true →
  GoString.runes s = GoString.bytes s ∧
  Spec.rune_count s = GoString.len s.
Proof.
  unfold strings.isASCII, Spec.rune_count, GoString.len, GoString.runes.
  intros H. rewrite (decode_from_ascii _ H). split; [done|].
  f_equal. apply length_bytes.
Qed.

Lemma ascii_runes_witness :
  GoString.runes "orders" = GoString.bytes "orders" ∧
  Spec.rune_count "orders" = GoString.len "orders".
Proof. apply (ascii_runes "orders"). reflexivity. Defined.

(** ** The closing report of a search *)

Lemma report_trace results :
  trace (search.report results)
  = replicate (length results) (EvLog LvInfo "Table Name: %s, ARN: %s").
Proof.
  induction results as [|r results IH]; [done|].
  cbn [search.report length replicate].
  rewrite trace_bind, trace_log, IH. done.
Qed.

(** The statements of [ExecuteSearch] after its branch, for a branch that
    yields matches. *)
Lemma report_phase (m : M (option (list (gmap string string)))) mt :
  value m = Some mt →
  let run :=
    found ← m;
    match found with
    | None => mret []
    | Some matchingTables =>
      (if bool_decide (matchingTables = []) then
         log LvWarn "Empty search results - please check the search conditions, tableFuzzyName:%s - tagValue:%s"
       else mret tt);;
      log LvInfo "Search results:";;
      search.report matchingTables;;
      mret matchingTables
    end in
  trace run =
  trace m ++
  (if bool_decide (value run = [])
   then [EvLog LvWarn "Empty search results - please check the search conditions, tableFuzzyName:%s - tagValue:%s"]
   else []) ++
  EvLog LvInfo "Search results:"
  :: replicate (length (value run)) (EvLog LvInfo "Table Name: %s, ARN: %s").
Proof.
  intros Hm. cbv zeta. rewrite trace_bind, value_bind, Hm.
  rewrite !value_bind, value_ret, !trace_bind, trace_ret, trace_log, report_trace.
  f_equal. rewrite app_nil_r.
  by destruct (bool_decide (mt = [])).
Qed.

(** X24: a search given a pattern or a tag value ends its run with the
    report: a warning "Empty search results" exactly when nothing is
    returned, then the record "Search results:", then one record per
    entry returned. *)
Theorem search_report f dbmgr pattern tagValue :
  pattern ≠ "" ∨ tagValue ≠ "" →
  let run := search.ExecuteSearch f dbmgr pattern tagValue in
  ∃ before,
    trace run =
    before ++
    (if bool_decide (value run = [])
     then [EvLog LvWarn "Empty search results - please check the search conditions, tableFuzzyName:%s - tagValue:%s"]
     else []) ++
    EvLog LvInfo "Search results:"
    :: replicate (length (value run)) (EvLog LvInfo "Table Name: %s, ARN: %s").
Proof.
  intros Hcond. cbv zeta. unfold search.ExecuteSearch.
  match goal with |- context [mbind _ ?m] =>
    match type of m with M (option _) => set (blk := m) end end.
  assert (Hv : ∃ mt, value blk = Some mt).
  { unfold blk. repeat case_decide; [..|tauto]; rewrite !value_bind; eauto. }
  destruct Hv as [mt Hmt]. exists (trace blk).
  exact (report_phase blk mt Hmt).
Qed.

Lemma search_report_witness :
  let run := search.ExecuteSearch Sample.noUnicode Sample.shop "zzzzzzzz" "" in
  ∃ before,
    trace run =
    before ++
    (if bool_decide (value run = [])
     then [EvLog LvWarn "Empty search results - please check the search conditions, tableFuzzyName:%s - tagValue:%s"]
     else []) ++
    EvLog LvInfo "Search results:"
    :: replicate (length (value run)) (EvLog LvInfo "Table Name: %s, ARN: %s").
Proof.
  apply (search_report Sample.noUnicode Sample.shop "zzzzzzzz" "").
  left. discriminate.
Defined.
